(** * Force-field atom typing: [htmd/parameterization/fftype.py]

    A shallow embedding of [_canonicalizeAtomNames] and [fftype] and the
    properties of the orchestration core: renaming, configuration checks,
    dispatch, workspace handling and reconciliation of the backend output.

    Python objects live in a store ([heap]) and are handled through
    references, so that "the caller's molecule is not mutated" is a statement
    about the store.  Everything the module does to the outside world (the
    temporary directory, files written, processes started) is recorded in a
    [trace]; what the outside world answers is given by the operations of the
    class [Collaborators]. *)

From stdpp Require Import base numbers list gmap strings pretty.
From Stdlib Require Import Ascii.
From Stdlib Require QArith Qround.

(** ** Python strings (ASCII) *)

Definition ascii_upper (c : ascii) : ascii :=
  let n := nat_of_ascii c in
  if ((97 <=? n) && (n <=? 122))%nat then ascii_of_nat (n - 32) else c.

Definition ascii_lower (c : ascii) : ascii :=
  let n := nat_of_ascii c in
  if ((65 <=? n) && (n <=? 90))%nat then ascii_of_nat (n + 32) else c.

Definition is_digit (c : ascii) : bool :=
  let n := nat_of_ascii c in ((48 <=? n) && (n <=? 57))%nat.

Fixpoint string_map (f : ascii → ascii) (s : string) : string :=
  match s with
  | EmptyString => EmptyString
  | String c s' => String (f c) (string_map f s')
  end.

Fixpoint string_forallb (p : ascii → bool) (s : string) : bool :=
  match s with
  | EmptyString => true
  | String c s' => p c && string_forallb p s'
  end.

(** [str.upper()] and [str.lower()]. *)
Definition upper : string → string := string_map ascii_upper.
Definition lower : string → string := string_map ascii_lower.

(** [sep.join(l)]. *)
Fixpoint join (sep : string) (l : list string) : string :=
  match l with
  | [] => ""
  | [x] => x
  | x :: l' => x +:+ sep +:+ join sep l'
  end.

Fixpoint spaces (n : nat) : string :=
  match n with O => "" | S n' => String " " (spaces n') end.

(** ['%-4s' % s]: left-justified in a field of width 4. *)
Definition ljust4 (s : string) : string := s +:+ spaces (4 - String.length s).

(** [os.path.join(d, f)] for a relative [f]. *)
Fixpoint ends_with_slash (d : string) : bool :=
  match d with
  | EmptyString => false
  | String c EmptyString => bool_decide (c = "/"%char)
  | String _ d' => ends_with_slash d'
  end.

Definition path_join (d f : string) : string :=
  if bool_decide (d = "") then f
  else if ends_with_slash d then d +:+ f
  else d +:+ "/" +:+ f.

(** Truth value of an optional string argument: [None] and [''] are false. *)
Definition truthy (o : option string) : bool :=
  match o with
  | None => false
  | Some s => negb (bool_decide (s = ""))
  end.

(** ** numpy comparison

    [np.all(a == b)] on one-dimensional arrays.  [==] broadcasts: arrays of
    equal length are compared position by position, an array of length one
    is compared with every entry of the other one, and for any other pair of
    lengths the comparison as a whole is [False].  [np.all] of an empty
    result is [True]. *)

Fixpoint all_eq2 (a b : list string) : bool :=
  match a, b with
  | [], [] => true
  | x :: a', y :: b' => bool_decide (x = y) && all_eq2 a' b'
  | _, _ => false
  end.

Definition np_all_eq (a b : list string) : bool :=
  if (length a =? length b)%nat then all_eq2 a b
  else match a, b with
       | [x], _ => forallb (λ y, bool_decide (x = y)) b
       | _, [y] => forallb (λ x, bool_decide (x = y)) a
       | _, _ => false
       end.

(** ** Names and ordinals *)

(** The last character of [s] is a decimal digit. *)
Fixpoint ends_with_digit (s : string) : bool :=
  match s with
  | EmptyString => false
  | String c EmptyString => is_digit c
  | String _ s' => ends_with_digit s'
  end.

(** Number of entries of [l] whose uppercased symbol is [key]. *)
Definition occurrences (key : string) (l : list string) : nat :=
  length (filter (λ e, upper e = key) l).

(** The name given to atom [i], of element [e], of a molecule whose element
    array is [elems]: its ordinal counts the atoms up to and including [i]
    with the same uppercased symbol. *)
Definition canonical_name (elems : list string) (i : nat) (e : string)
    : string :=
  upper e +:+ pretty (occurrences (upper e) (take (S i) elems)).

Definition canonical_names (elems : list string) : list string :=
  imap (canonical_name elems) elems.

(** ** Numbers *)

(** What the conversion of a float to [int] gives: an integer, or
    [ValueError] on a NaN, or [OverflowError] on an infinity. *)
Inductive conversion :=
  | Integer (z : Z)
  | NotANumber
  | Infinity.

(** numpy floating-point scalars (numbers, infinities, NaN) and the three
    operations of [int(round(np.sum(mol.charge)))].  [py_int (py_round x)]
    is the outcome of [int(round(x))], whether it is [round] or [int] that
    refuses a NaN or an infinity. *)
Class Numeric := {
  float : Type;
  np_sum : list float → float;
  py_round : float → float;
  py_int : float → conversion;
  str_float : float → string;
}.

Section Model.
Context `{Numeric}.

(** The [netcharge] argument: a Python [int] or a float. *)
Inductive pynum :=
  | PyInt (z : Z)
  | PyFloat (x : float).

Definition str (n : pynum) : string :=
  match n with
  | PyInt z => pretty z
  | PyFloat x => str_float x
  end.

(** ** Molecule

    Modelled from the spec: the class [Molecule] of [htmd.molecule.molecule]
    is not part of this module.  It holds parallel per-atom arrays;
    [numAtoms] is their common length and [copy] is a deep copy. *)
Record Molecule := mkMolecule {
  name : list string;
  element : list string;
  charge : list float;
  atomtype : list string;
  masses : list float;
  impropers : list (list nat);
  segid : list string;
  resname : list string;
}.

Definition numAtoms (m : Molecule) : nat := length (name m).

Definition wf_molecule (m : Molecule) : Prop :=
  length (element m) = numAtoms m ∧
  length (segid m) = numAtoms m ∧
  length (resname m) = numAtoms m.

Definition set_name (v : list string) (m : Molecule) : Molecule :=
  mkMolecule v (element m) (charge m) (atomtype m) (masses m) (impropers m)
             (segid m) (resname m).
Definition set_segid (v : list string) (m : Molecule) : Molecule :=
  mkMolecule (name m) (element m) (charge m) (atomtype m) (masses m)
             (impropers m) v (resname m).
Definition set_resname (v : list string) (m : Molecule) : Molecule :=
  mkMolecule (name m) (element m) (charge m) (atomtype m) (masses m)
             (impropers m) (segid m) v.
Definition set_atomtype (v : list string) (m : Molecule) : Molecule :=
  mkMolecule (name m) (element m) (charge m) v (masses m) (impropers m)
             (segid m) (resname m).
Definition set_masses (v : list float) (m : Molecule) : Molecule :=
  mkMolecule (name m) (element m) (charge m) (atomtype m) v (impropers m)
             (segid m) (resname m).
Definition set_impropers (v : list (list nat)) (m : Molecule) : Molecule :=
  mkMolecule (name m) (element m) (charge m) (atomtype m) (masses m) v
             (segid m) (resname m).
Definition set_charge (v : list float) (m : Molecule) : Molecule :=
  mkMolecule (name m) (element m) v (atomtype m) (masses m) (impropers m)
             (segid m) (resname m).

(** ** The outside world *)

(** What a backend reader returns:
    [(names, elements, atomtypes, charges, masses, impropers)]. *)
Definition RTFData : Type :=
  list string * list string * list string * list float * list float
  * list (list nat).

(** The collaborators of the module: parmed's parameter sets, the readers of
    [htmd.parameterization.readers], [Molecule.write], [subprocess.call] and
    the temporary directory.  [inl e] is an exception [e] raised by the
    collaborator. *)
Class Collaborators := {
  ParameterSet : Type;
  Env : Type;
  CharmmParameterSet : string → string → Env → string + ParameterSet;
  AmberParameterSet : string → Env → string + ParameterSet;
  readRTF : string → Env → string + RTFData;
  readPREPI : Molecule → string → Env →
    string + (list string * list string * list float * list (list nat));
  readFRCMOD : list string → string → Env → string + (list float * list string);
  Molecule_write : Molecule → string → Env → (string + unit) * Env;
  os_call : list string → string → Env → (string + Z) * Env;
  mkdtemp : Env → string * Env;
  rmtree : string → Env → Env;
}.

Context `{Collaborators}.

Inductive Event :=
  | EvMkdtemp (d : string)                  (* TemporaryDirectory() created d *)
  | EvCleanup (d : string)                  (* d removed with all its content *)
  | EvWrite (path : string)                 (* Molecule.write(path) *)
  | EvCall (cmd : list string) (cwd : string). (* subprocess.call(cmd, cwd=cwd) *)

Inductive Level := DEBUG | INFO | WARNING.

Inductive exn :=
  | ValueError (msg : string)
  | RuntimeError (msg : string)
  | OverflowError (msg : string)
  | AssertionError
  | IndexError
  | Foreign (e : string).   (* raised inside a collaborator *)

Inductive result (A : Type) :=
  | Ok (a : A)
  | Err (e : exn).
Global Arguments Ok {A} a.
Global Arguments Err {A} e.

Definition ref := nat.

Record World := mkWorld {
  heap : list Molecule;
  log : list (Level * string);
  trace : list Event;
  env : Env;
}.

(** ** State and exception monad *)

Definition M (A : Type) : Type := World → result A * World.

Global Instance M_ret : MRet M := λ A a w, (Ok a, w).
Global Instance M_bind : MBind M := λ A B k m w,
  match m w with
  | (Ok a, w') => k a w'
  | (Err e, w') => (Err e, w')
  end.

Definition raise {A} (e : exn) : M A := λ w, (Err e, w).

Definition lift {A} (r : string + A) : M A :=
  match r with
  | inl e => raise (Foreign e)
  | inr a => mret a
  end.

Definition logger (lvl : Level) (msg : string) : M unit := λ w,
  (Ok (), mkWorld (heap w) (log w ++ [(lvl, msg)]) (trace w) (env w)).

Definition emit (ev : Event) (e : Env) (w : World) : World :=
  mkWorld (heap w) (log w) (trace w ++ [ev]) e.

(** Attribute access on the object behind a reference. *)
Definition getobj (r : ref) : M Molecule := λ w,
  match heap w !! r with
  | Some m => (Ok m, w)
  | None => (Err (Foreign "no such object"), w)
  end.

Definition setobj (r : ref) (m : Molecule) : M unit := λ w,
  (Ok (), mkWorld (<[r := m]> (heap w)) (log w) (trace w) (env w)).

(** [mol.copy()]: a new object with the same content. *)
Definition copy (r : ref) : M ref := λ w,
  match heap w !! r with
  | Some m => (Ok (length (heap w)),
               mkWorld (heap w ++ [m]) (log w) (trace w) (env w))
  | None => (Err (Foreign "no such object"), w)
  end.

(** [a[i]]: numpy raises [IndexError] out of range. *)
Definition index {A} (a : list A) (i : nat) : M A :=
  match a !! i with
  | Some x => mret x
  | None => raise IndexError
  end.

Definition py_assert (b : bool) : M unit :=
  if b then mret () else raise AssertionError.

(** Reading from the environment does not change it. *)
Definition observe {A} (f : Env → string + A) : M A := λ w, lift (f (env w)) w.

Definition write (m : Molecule) (path : string) : M unit := λ w,
  let '(r, e) := Molecule_write m path (env w) in
  lift r (emit (EvWrite path) e w).

Definition subprocess_call (cmd : list string) (cwd : string) : M Z := λ w,
  let '(r, e) := os_call cmd cwd (env w) in
  lift r (emit (EvCall cmd cwd) e w).

(** [with TemporaryDirectory() as tmpdir: body]: the directory is removed
    when the block is left, whether normally or by an exception. *)
Definition with_TemporaryDirectory {A} (body : string → M A) : M A := λ w,
  let '(d, e) := mkdtemp (env w) in
  let '(r, w') := body d (emit (EvMkdtemp d) e w) in
  (r, emit (EvCleanup d) (rmtree d (env w')) w').

(** ** [_canonicalizeAtomNames] *)

Fixpoint rename_atoms (mol : ref) (range : list nat)
    (sufices : gmap string nat) : M unit :=
  match range with
  | [] => mret ()
  | i :: range' =>
      m ← getobj mol;
      e ← index (element m) i;
      let name0 := upper e in
      let sufices := <[name0 := default 0 (sufices !! name0) + 1]> sufices in
      let name1 := name0 +:+ pretty (default 0 (sufices !! name0)) in
      old ← index (name m) i;
      logger INFO ("Rename atom " +:+ pretty i +:+ ": " +:+ ljust4 old
                   +:+ " --> " +:+ ljust4 name1);;
      setobj mol (set_name (<[i := name1]> (name m)) m);;
      rename_atoms mol range' sufices
  end.

Definition _canonicalizeAtomNames (mol : ref) : M ref :=
  mol ← copy mol;
  m ← getobj mol;
  setobj mol (set_segid (replicate (length (segid m)) "L") m);;
  m ← getobj mol;
  s ← index (segid m) 0;
  logger INFO ("Rename segment to " +:+ s);;
  setobj mol (set_resname (replicate (length (resname m)) "MOL") m);;
  m ← getobj mol;
  s ← index (resname m) 0;
  logger INFO ("Rename residue to " +:+ s);;
  rename_atoms mol (seq 0 (numAtoms m)) ∅;;
  mret mol.

(** ** [fftype] *)

Definition fftypemethods : list string := ["CGenFF_2b6"; "GAFF"; "GAFF2"].

(** [(prm, names, elements, atomtypes, charges, masses, impropers)]. *)
Definition BackendOut : Type :=
  ParameterSet * list string * list string * list string * list float
  * list float * list (list nat).

(** A name between double quotes. *)
Definition quoted (s : string) : string :=
  String "034"%char s +:+ String "034"%char "".

Definition antechamber_cmd (atomtype : string) (netcharge : pynum)
    (acCharges : option string) : list string :=
  ["antechamber"; "-at"; atomtype; "-nc"; str netcharge; "-fi"; "mol2";
   "-i"; "mol.mol2"; "-fo"; "prepi"; "-o"; "mol.prepi"]
  ++ match acCharges with
     | Some scheme => ["-c"; scheme]
     | None => []
     end.

Definition parmchk2_cmd (atomtype : string) : list string :=
  ["parmchk2"; "-f"; "prepi"; "-s"; atomtype; "-i"; "mol.prepi";
   "-o"; "mol.frcmod"; "-a"; "Y"].

Definition match_typer_cmd (netcharge : pynum) : list string :=
  ["match-typer"; "-charge"; str netcharge;
   "-forcefield"; "top_all36_cgenff_new"; "mol.pdb"].

(** Lines 121-156: antechamber, then parmchk2, then the two readers. *)
Definition gaff_strategy (renamed_mol : ref) (method : string)
    (acCharges : option string) (netcharge : pynum) (tmpdir : string)
    : M BackendOut :=
  m ← getobj renamed_mol;
  write m (path_join tmpdir "mol.mol2");;
  let atomtype := lower method in
  returncode ← subprocess_call (antechamber_cmd atomtype netcharge acCharges)
                               tmpdir;
  (if bool_decide (returncode ≠ 0%Z)
   then raise (RuntimeError (quoted "antechamber" +:+ " failed"))
   else mret ());;
  returncode ← subprocess_call (parmchk2_cmd atomtype) tmpdir;
  (if bool_decide (returncode ≠ 0%Z)
   then raise (RuntimeError (quoted "parmchk2" +:+ " failed"))
   else mret ());;
  prm ← observe (AmberParameterSet (path_join tmpdir "mol.frcmod"));
  m ← getobj renamed_mol;
  '(names, atomtypes, charges, impropers) ←
    observe (readPREPI m (path_join tmpdir "mol.prepi"));
  '(masses, elements) ←
    observe (readFRCMOD atomtypes (path_join tmpdir "mol.frcmod"));
  mret (prm, names, elements, atomtypes, charges, masses, impropers).

(** Lines 158-173: match-typer, then the RTF reader. *)
Definition cgenff_strategy (renamed_mol : ref) (netcharge : pynum)
    (tmpdir : string) : M BackendOut :=
  m ← getobj renamed_mol;
  write m (path_join tmpdir "mol.pdb");;
  returncode ← subprocess_call (match_typer_cmd netcharge) tmpdir;
  (if bool_decide (returncode ≠ 0%Z)
   then raise (RuntimeError (quoted "match-typer" +:+ " failed"))
   else mret ());;
  prm ← observe (CharmmParameterSet (path_join tmpdir "mol.rtf")
                                    (path_join tmpdir "mol.prm"));
  '(names, elements, atomtypes, charges, masses, impropers) ←
    observe (readRTF (path_join tmpdir "mol.rtf"));
  mret (prm, names, elements, atomtypes, charges, masses, impropers).

(** Lines 115-176: the [with] block. *)
Definition workspace (renamed_mol : ref) (method : string)
    (acCharges tmpDir : option string) (netcharge : pynum) : M BackendOut :=
  with_TemporaryDirectory (λ tmpdir,
    let tmpdir := match tmpDir with None => tmpdir | Some d => d end in
    logger DEBUG ("Temporary directory: " +:+ tmpdir);;
    if bool_decide (method ∈ ["GAFF"; "GAFF2"]) then
      gaff_strategy renamed_mol method acCharges netcharge tmpdir
    else if bool_decide (method = "CGenFF_2b6") then
      cgenff_strategy renamed_mol netcharge tmpdir
    else
      raise (ValueError ("Invalid method " +:+ method))).

(** Line 178: the check of the names. *)
Definition check_names (renamed_mol : ref) (out : BackendOut) : M BackendOut :=
  let '(prm, names, elements, atomtypes, charges, masses, impropers) := out in
  renamed ← getobj renamed_mol;
  py_assert (np_all_eq (name renamed) names);;
  mret out.

(** Lines 104-178: the files given by the caller, or renaming, the backend
    and the check of the names. *)
Definition backend (mol : ref) (rtfFile prmFile : option string)
    (method : string) (acCharges tmpDir : option string) (netcharge : pynum)
    : M BackendOut :=
  if truthy rtfFile && truthy prmFile then
    let rtf := default "" rtfFile in
    let par := default "" prmFile in
    logger INFO ("Reading FF parameters from " +:+ rtf +:+ " and " +:+ par);;
    prm ← observe (CharmmParameterSet rtf par);
    '(names, elements, atomtypes, charges, masses, impropers) ←
      observe (readRTF rtf);
    mret (prm, names, elements, atomtypes, charges, masses, impropers)
  else
    logger INFO ("Assigning atom types with " +:+ method);;
    renamed_mol ← _canonicalizeAtomNames mol;
    out ← workspace renamed_mol method acCharges tmpDir netcharge;
    check_names renamed_mol out.

(** Lines 180-189: the check of the elements and the molecule returned. *)
Definition reconcile (mol : ref) (acCharges : option string)
    (out : BackendOut) : M (ParameterSet * ref) :=
  let '(prm, names, elements, atomtypes, charges, masses, impropers) := out in
  m ← getobj mol;
  py_assert (np_all_eq (element m) elements);;
  mol ← copy mol;
  m ← getobj mol;
  setobj mol (set_atomtype atomtypes m);;
  m ← getobj mol;
  setobj mol (set_masses masses m);;
  m ← getobj mol;
  setobj mol (set_impropers impropers m);;
  (match acCharges with
   | Some _ => m ← getobj mol; setobj mol (set_charge charges m)
   | None => mret ()
   end);;
  mret (prm, mol).

Definition fftype (mol : ref) (rtfFile prmFile : option string)
    (method : string) (acCharges tmpDir : option string)
    (netcharge : option pynum) : M (ParameterSet * ref) :=
  if negb (bool_decide (method ∈ fftypemethods)) then
    raise (ValueError ("Invalid method " +:+ method +:+ ". Available methods "
                       +:+ join "," fftypemethods))
  else if bool_decide (method = "CGenFF_2b6") && truthy acCharges then
    raise (ValueError "acCharges")
  else
    netcharge ← match netcharge with
                | None =>
                    m ← getobj mol;
                    match py_int (py_round (np_sum (charge m))) with
                    | Integer z =>
                        logger WARNING "Using atomic charges from molecule object to calculate net charge";;
                        mret (PyInt z)
                    | NotANumber =>
                        raise (ValueError "cannot convert float NaN to integer")
                    | Infinity =>
                        raise (OverflowError "cannot convert float infinity to integer")
                    end
                | Some n => mret n
                end;
    out ← backend mol rtfFile prmFile method acCharges tmpDir netcharge;
    reconcile mol acCharges out.

(** ** Specification vocabulary *)

(** What [_canonicalizeAtomNames] builds from [m]. *)
Definition canonicalized (m : Molecule) : Molecule :=
  mkMolecule (canonical_names (element m)) (element m) (charge m)
             (atomtype m) (masses m) (impropers m)
             (replicate (numAtoms m) "L") (replicate (numAtoms m) "MOL").

(** The net charge that the backend is given, the argument or else the one
    derived at line 101, which can raise; and the world in which the backend
    starts. *)
Definition netcharge_used (m : Molecule) (netcharge : option pynum)
    : result pynum :=
  match netcharge with
  | Some n => Ok n
  | None =>
      match py_int (py_round (np_sum (charge m))) with
      | Integer z => Ok (PyInt z)
      | NotANumber => Err (ValueError "cannot convert float NaN to integer")
      | Infinity =>
          Err (OverflowError "cannot convert float infinity to integer")
      end
  end.

Definition after_netcharge (netcharge : option pynum) (w : World) : World :=
  match netcharge with
  | Some _ => w
  | None =>
      mkWorld (heap w)
        (log w ++ [(WARNING, "Using atomic charges from molecule object to calculate net charge")])
        (trace w) (env w)
  end.

(** The molecule that [fftype] returns. *)
Definition typed (m : Molecule) (acCharges : option string)
    (atomtypes : list string) (charges masses : list float)
    (impropers : list (list nat)) : Molecule :=
  mkMolecule (name m) (element m)
             (match acCharges with Some _ => charges | None => charge m end)
             atomtypes masses impropers (segid m) (resname m).

Definition add_log (rec : Level * string) (w : World) : World :=
  mkWorld (heap w) (log w ++ [rec]) (trace w) (env w).

Definition add_object (m : Molecule) (w : World) : World :=
  mkWorld (heap w ++ [m]) (log w) (trace w) (env w).

(** A logic of effects.

    [behaves R E m]: whenever [m] runs, the world it leaves is related to the
    world it started in by [R], and an exception it raises is in [E]. *)

Definition behaves {A} (R : relation World) (E : exn → Prop) (m : M A) : Prop :=
  ∀ w, R w (m w).2 ∧ ∀ e, (m w).1 = Err e → E e.

(** The store after is related to the store before by [Hp], the log has only
    grown, the events added to the trace are all in [P], and the environment
    is the same unless an event was added. *)
Definition frame (P : Event → Prop) (Hp : relation (list Molecule))
    (w w' : World) : Prop :=
  Hp (heap w) (heap w') ∧
  log w `prefix_of` log w' ∧
  ∃ t, trace w' = trace w ++ t ∧ Forall P t ∧ (t = [] → env w' = env w).

(** Objects that exist keep their content; new ones may appear. *)
Definition grows (h h' : list Molecule) : Prop :=
  ∀ r, r < length h → h' !! r = h !! r.

(** Only the object behind [r] may change. *)
Definition same_except (r : ref) (h h' : list Molecule) : Prop :=
  length h' = length h ∧ ∀ r', r' ≠ r → h' !! r' = h !! r'.

(** Events that concern the directory [d] and nothing else. *)
Definition in_dir (d : string) (ev : Event) : Prop :=
  match ev with
  | EvWrite path => ∃ f, path = path_join d f
  | EvCall _ cwd => cwd = d
  | _ => False
  end.

Definition any_event (ev : Event) : Prop := True.

Definition no_event (ev : Event) : Prop := False.

Definition all_exn (e : exn) : Prop := True.

(** The steps of the GAFF strategy in the working directory, in order. *)
Definition gaff_events (method : string) (acCharges : option string)
    (netcharge : pynum) (dir : string) : list Event :=
  [EvWrite (path_join dir "mol.mol2");
   EvCall (antechamber_cmd (lower method) netcharge acCharges) dir;
   EvCall (parmchk2_cmd (lower method)) dir].

(** The steps of the CGenFF strategy in the working directory, in order. *)
Definition cgenff_events (netcharge : pynum) (dir : string) : list Event :=
  [EvWrite (path_join dir "mol.pdb");
   EvCall (match_typer_cmd netcharge) dir].

(** [RuntimeError('"{}" failed'.format(cmd[0]))]. *)
Definition tool_failed (tool : string) : exn :=
  RuntimeError (quoted tool +:+ " failed").

(** The events [t] that a run added, against the steps of its strategy:
    a prefix of the steps, all of them when the run returned or failed a
    consistency check, and for a failed tool the steps up to that tool
    ([first] is the tool of step two, [second] the tool of the last step). *)
Definition follows_steps {A} (steps : list Event) (first second : string)
    (res : result A) (t : list Event) : Prop :=
  t `prefix_of` steps ∧
  (∀ a, res = Ok a → t = steps) ∧
  (res = Err AssertionError → t = steps) ∧
  (∀ msg, res = Err (RuntimeError msg) →
     (RuntimeError msg = tool_failed first ∧ t = take 2 steps) ∨
     (RuntimeError msg = tool_failed second ∧ t = steps)).

Definition not_runtime (e : exn) : Prop := ∀ msg, e ≠ RuntimeError msg.


(** The records added to the log are all in [Q]. *)
Definition logged (Q : Level * string → Prop) (w w' : World) : Prop :=
  ∃ l, log w' = log w ++ l ∧ Forall Q l.

End Model.

(** ** [TestFftype]

    The assertions of the test class, as functions of the values they
    compare; a failed assertion is [AssertionError]. *)

Section TestFftype.
Context `{Numeric}.

(** [unittest]'s comparison of two floats to a number of decimal places
    ([first == second or round(abs(first - second), places) == 0]). *)
Variable almost_equal : float → float → nat → bool.

Definition assertEqual {A} `{EqDecision A} (first second : A) : result unit :=
  if bool_decide (first = second) then Ok () else Err AssertionError.

Definition assertAlmostEqual (first second : float) (places : nat)
    : result unit :=
  if almost_equal first second places then Ok () else Err AssertionError.

(** [for x in l: body(x)], left at the first exception. *)
Fixpoint for_each {A} (body : A → result unit) (l : list A) : result unit :=
  match l with
  | [] => Ok ()
  | x :: l' =>
      match body x with
      | Ok _ => for_each body l'
      | Err e => Err e
      end
  end.

(** One statement after another. *)
Definition and_then (first : result unit) (next : result unit) : result unit :=
  match first with
  | Ok _ => next
  | Err e => Err e
  end.

Definition assertListAlmostEqual (list1 list2 : list float) (places : nat)
    : result unit :=
  and_then (assertEqual (length list1) (length list2))
    (for_each (λ '(a, b), assertAlmostEqual a b places) (zip list1 list2)).

(** [refs] is the parameter [impropers]. *)
Definition _test_mol_props (testMolecule : Molecule)
    (names elements atomtypes : list string) (charges : list float)
    (refs : list (list nat)) : result unit :=
  and_then (assertEqual (name testMolecule) names)
  (and_then (assertEqual (element testMolecule) elements)
  (and_then (assertEqual (atomtype testMolecule) atomtypes)
  (and_then (assertListAlmostEqual (charge testMolecule) charges 7)
     (if bool_decide (length refs ≠ 0) then
        for_each (λ '(test, ref), assertEqual test ref)
                 (zip (impropers testMolecule) refs)
      else
        assertEqual (impropers testMolecule) refs)))).

(** The values that [mapping] tells apart: a [str], a [bool], another
    number, an [ndarray], and anything else, with the text of its
    [type(value)]. *)
#[warnings="-register-all"]
Inductive pyvalue :=
  | VStr (s : string)
  | VBool (b : bool)
  | VNum (n : pynum)
  | VArray (items : list pyvalue)
  | VOther (type_name : string).

(** [mapping] of [_generate_references]; [inl msg] is [Exception(msg)]. *)
Fixpoint mapping (value : pyvalue) : string + string :=
  match value with
  | VStr s => inr ("'" +:+ s +:+ "'")
  | VBool b => inr (if b then "True" else "False")
  | VNum n => inr (str n)
  | VArray items =>
      match (fix each (l : list pyvalue) : string + list string :=
               match l with
               | [] => inr []
               | x :: l' =>
                   match mapping x with
                   | inl e => inl e
                   | inr s =>
                       match each l' with
                       | inl e => inl e
                       | inr ss => inr (s :: ss)
                       end
                   end
               end) items with
      | inl e => inl e
      | inr ss => inr ("[" +:+ join ", " ss +:+ "]")
      end
  | VOther t => inl ("No mapping for type " +:+ t)
  end.

(** The type of the first leaf, from the left, that [mapping] has no case
    for. *)
Fixpoint first_unmapped (value : pyvalue) : option string :=
  match value with
  | VStr _ | VBool _ | VNum _ => None
  | VArray items =>
      (fix each (l : list pyvalue) : option string :=
         match l with
         | [] => None
         | x :: l' =>
             match first_unmapped x with
             | Some t => Some t
             | None => each l'
             end
         end) items
  | VOther t => Some t
  end.

End TestFftype.

(** ** A scripted outside world

    Charges are rationals, infinities or NaN, the readers return what the
    script says whatever the path, and external processes exit with the next
    code of the script. *)
Module Demo.

Inductive number :=
  | Fin (x : QArith_base.Q)
  | Inf (negative : bool)
  | NaN.

(** Addition: NaN is absorbing, and so is the sum of opposite infinities. *)
Definition add (a b : number) : number :=
  match a, b with
  | NaN, _ | _, NaN => NaN
  | Fin x, Fin y => Fin (QArith_base.Qplus x y)
  | Inf s, Fin _ | Fin _, Inf s => Inf s
  | Inf s, Inf s' => if Bool.eqb s s' then Inf s else NaN
  end.

Definition fsum (l : list number) : number :=
  foldr add (Fin (QArith_base.inject_Z 0)) l.

(** Round to the nearest integer, halves to the even one. *)
Definition qround (q : QArith_base.Q) : QArith_base.Q :=
  let f := Qround.Qfloor q in
  let twice := Qround.Qfloor (QArith_base.Qmult (QArith_base.inject_Z 2) q) in
  let exact_half :=
    QArith_base.Qeq_bool
      (QArith_base.Qmult (QArith_base.inject_Z 2) q)
      (QArith_base.inject_Z (2 * f + 1)) in
  QArith_base.inject_Z
    (if exact_half then (if Z.even f then f else f + 1)
     else if (twice =? 2 * f)%Z then f else (f + 1))%Z.

Definition qint (q : QArith_base.Q) : Z := Qround.Qfloor q.

Definition fround (x : number) : number :=
  match x with
  | Fin q => Fin (qround q)
  | _ => x
  end.

Definition fint (x : number) : conversion :=
  match x with
  | Fin q => Integer (qint q)
  | Inf _ => Infinity
  | NaN => NotANumber
  end.

#[export] Instance numeric : Numeric := {|
  float := number;
  np_sum := fsum;
  py_round := fround;
  py_int := fint;
  str_float x :=
    match x with
    | Fin q => pretty (QArith_base.Qnum q) +:+ "/"
               +:+ pretty (QArith_base.Qden q)
    | Inf negative => if negative then "-inf" else "inf"
    | NaN => "nan"
    end;
|}.

Record Script := mkScript {
  exit_codes : list Z;
  rtf_file : string + RTFData;
  prepi_file : string + (list string * list string * list float * list (list nat));
  frcmod_file : string + (list float * list string);
  files : list string;
  tmp_count : nat;
}.

Definition under (d path : string) : bool :=
  bool_decide (path = d) || String.prefix (d +:+ "/") path.

#[export] Instance collaborators : Collaborators := {|
  ParameterSet := string;
  Env := Script;
  CharmmParameterSet rtf par _ := inr ("charmm:" +:+ rtf +:+ ":" +:+ par);
  AmberParameterSet frcmod _ := inr ("amber:" +:+ frcmod);
  readRTF _ e := rtf_file e;
  readPREPI _ _ e := prepi_file e;
  readFRCMOD _ _ e := frcmod_file e;
  Molecule_write _ path e :=
    (inr (), mkScript (exit_codes e) (rtf_file e) (prepi_file e)
                      (frcmod_file e) (path :: files e) (tmp_count e));
  os_call _ _ e :=
    (inr (hd 0%Z (exit_codes e)),
     mkScript (tl (exit_codes e)) (rtf_file e) (prepi_file e) (frcmod_file e)
              (files e) (tmp_count e));
  mkdtemp e :=
    let d := "/tmp/tmp" +:+ pretty (tmp_count e) in
    (d, mkScript (exit_codes e) (rtf_file e) (prepi_file e) (frcmod_file e)
                 (d :: files e) (S (tmp_count e)));
  rmtree d e :=
    mkScript (exit_codes e) (rtf_file e) (prepi_file e) (frcmod_file e)
             (filter (λ p, negb (under d p)) (files e)) (tmp_count e);
|}.

Definition atoms (elems : list string) (names : list string)
    (charges : list float) : Molecule :=
  mkMolecule names elems charges (replicate (length names) "")
             (replicate (length names) (Fin (QArith_base.inject_Z 0))) []
             (replicate (length names) "X") (replicate (length names) "UNK").

Definition start (ms : list Molecule) (e : Script) : World :=
  mkWorld ms [] [] e.

Definition ethanolamine : Molecule :=
  atoms ["C"; "C"; "N"; "H"; "H"; "H"; "H"; "H"; "O"]
        ["CA"; "CB"; "N"; "HA"; "HB"; "HC"; "HD"; "HE"; "O"]
        (replicate 9 (Fin (QArith_base.inject_Z 0))).

End Demo.

(** Molecules and scripts for the runs below. *)
Module Runs.
Import Demo.

Definition q (n : Z) (d : positive) : float := Fin (QArith_base.Qmake n d).

Definition blank : Script :=
  mkScript [] (inl "no RTF file") (inl "no PREPI file") (inl "no FRCMOD file")
           [] 0.

(** Eleven carbon atoms and one atom whose element symbol is ['C1']. *)
Definition clash : Molecule :=
  atoms (replicate 11 "C" ++ ["C1"]) (replicate 12 "X") (replicate 12 (q 0 1)).

Definition no_atoms : Molecule := atoms [] [] [].

(** A lone carbon atom, and a backend that reports two atoms named [C1]. *)
Definition carbon : Molecule := atoms ["C"] ["C"] [q 0 1].

Definition two_for_one : Script :=
  mkScript [0%Z; 0%Z] (inl "no RTF file")
    (inr (["C1"; "C1"], ["c3"; "c3"], [q 0 1; q 0 1], []))
    (inr ([q 12 1; q 12 1], ["C"; "C"])) [] 0.

(** Molecular hydrogen, and a topology file that describes a single
    hydrogen atom under another name. *)
Definition hydrogen : Molecule := atoms ["H"; "H"] ["H1"; "H2"] [q 0 1; q 0 1].

Definition one_hydrogen : Script :=
  mkScript [] (inr (["HX"], ["H"], ["HGA1"], [q 0 1], [q 1008 1000], []))
    (inl "no PREPI file") (inl "no FRCMOD file") [] 0.

(** Water with the names of the caller, and a topology file with others. *)
Definition water : Molecule :=
  atoms ["O"; "H"; "H"] ["OW"; "HW1"; "HW2"] [q (-8) 10; q 4 10; q 4 10].

Definition water_rtf : Script :=
  mkScript []
    (inr (["OH2"; "H1"; "H2"], ["O"; "H"; "H"], ["OT"; "HT"; "HT"],
          [q (-834) 1000; q 417 1000; q 417 1000],
          [q 15999 1000; q 1008 1000; q 1008 1000], []))
    (inl "no PREPI file") (inl "no FRCMOD file") [] 0.

(** antechamber exits with status 1. *)
Definition antechamber_fails : Script :=
  mkScript [1%Z] (inl "no RTF file") (inl "no PREPI file")
           (inl "no FRCMOD file") [] 0.

(** [assertAlmostEqual] on rationals: equal, or a difference that rounds to
    zero at [places] decimal places. *)
Definition close (a b : float) (places : nat) : bool :=
  let scaled (x : QArith_base.Q) :=
    QArith_base.Qmult x (QArith_base.inject_Z (10 ^ Z.of_nat places)) in
  let half := QArith_base.Qmake 1 2 in
  match a, b with
  | Fin x, Fin y =>
      QArith_base.Qeq_bool x y
      || (QArith_base.Qle_bool (scaled (QArith_base.Qminus x y)) half
          && QArith_base.Qle_bool (scaled (QArith_base.Qminus y x)) half)
  | Inf s, Inf s' => Bool.eqb s s'
  | _, _ => false
  end.

(** A hydroxide ion, and what antechamber and parmchk2 leave for it. *)
Definition hydroxide : Molecule :=
  atoms ["O"; "H"] ["O"; "H"] [q (-14) 10; q 4 10].

Definition hydroxide_typed : Script :=
  mkScript [0%Z; 0%Z] (inl "no RTF file")
    (inr (["O1"; "H1"], ["oh"; "ho"], [q (-14) 10; q 4 10], []))
    (inr ([q 16 1; q 1008 1000], ["O"; "H"])) [] 0.

(** An atom whose charge is not a number, and one whose charge is infinite. *)
Definition uncharged : Molecule := atoms ["C"] ["C"] [NaN].

Definition overcharged : Molecule := atoms ["C"] ["C"] [Inf false].

(** Reference impropers for a molecule that has none. *)
Definition one_improper : list (list nat) := [[0; 1; 2; 3]].

End Runs.


(** * Properties *)

(** ** Strings and decimal numerals *)


Lemma is_digit_pretty_N_char x : is_digit (pretty_N_char x) = true.
Proof. unfold pretty_N_char. by repeat case_match. Qed.

Lemma digits_pretty_N_go x s :
  string_forallb is_digit s = true →
  string_forallb is_digit (pretty_N_go x s) = true.
Proof.
  revert s. induction (N.lt_wf_0 x) as [x _ IH]; intros s Hs.
  destruct (decide (x = 0%N)) as [->|Hx]; [by rewrite pretty_N_go_0|].
  rewrite pretty_N_go_step by lia.
  apply IH; [apply N.div_lt; lia|].
  simpl. by rewrite is_digit_pretty_N_char.
Qed.

Lemma digits_pretty_nat (n : nat) : string_forallb is_digit (pretty n) = true.
Proof.
  unfold pretty, pretty_nat, pretty, pretty_N.
  case_decide; [done|]. by apply digits_pretty_N_go.
Qed.

Lemma is_digit_upper c : is_digit (ascii_upper c) = is_digit c.
Proof. by destruct c as [[] [] [] [] [] [] [] []]. Qed.

Lemma ends_with_digit_upper s : ends_with_digit (upper s) = ends_with_digit s.
Proof.
  induction s as [|c s IH]; [done|].
  destruct s as [|c' s]; simpl in *; [apply is_digit_upper | apply IH].
Qed.

Lemma string_app_nil_l (d : string) : "" +:+ d = d.
Proof. reflexivity. Qed.

Lemma string_app_cons c (s d : string) :
  String c s +:+ d = String c (s +:+ d).
Proof. reflexivity. Qed.

(** A non-empty beginning of a numeral ends with a digit. *)
Lemma digits_prefix_ends_with_digit s d :
  string_forallb is_digit (s +:+ d) = true → s ≠ "" →
  ends_with_digit s = true.
Proof.
  induction s as [|c s IH]; [done|]. rewrite string_app_cons. simpl.
  intros Hd _. apply andb_prop in Hd as [Hc Hd].
  destruct s as [|c' s]; [done|]. by apply IH.
Qed.

Lemma ends_with_digit_tail c s :
  ends_with_digit (String c s) = false → ends_with_digit s = false.
Proof. by destruct s. Qed.

(** A stem that ends with no digit can be split from its numeral in one way
    only. *)
Lemma stem_numeral_inj s1 s2 d1 d2 :
  ends_with_digit s1 = false → ends_with_digit s2 = false →
  string_forallb is_digit d1 = true → string_forallb is_digit d2 = true →
  s1 +:+ d1 = s2 +:+ d2 → s1 = s2 ∧ d1 = d2.
Proof.
  revert s2. induction s1 as [|c1 s1 IH]; intros [|c2 s2] H1 H2 Hd1 Hd2 Heq.
  - done.
  - rewrite string_app_nil_l in Heq. subst d1.
    assert (ends_with_digit (String c2 s2) = true); [|congruence].
    by apply (digits_prefix_ends_with_digit _ d2).
  - rewrite string_app_nil_l in Heq. subst d2.
    assert (ends_with_digit (String c1 s1) = true); [|congruence].
    by apply (digits_prefix_ends_with_digit _ d1).
  - rewrite !string_app_cons in Heq. injection Heq as -> Heq.
    destruct (IH s2) as [-> ->]; eauto using ends_with_digit_tail.
Qed.

(** ** Ordinals *)



Lemma occurrences_app key l1 l2 :
  occurrences key (l1 ++ l2) = occurrences key l1 + occurrences key l2.
Proof. unfold occurrences. by rewrite filter_app, length_app. Qed.

Lemma occurrences_take_S key l i e :
  l !! i = Some e →
  occurrences key (take (S i) l)
  = occurrences key (take i l) + (if decide (upper e = key) then 1 else 0).
Proof.
  intros Hi. rewrite (take_S_r _ _ _ Hi), occurrences_app. f_equal.
  unfold occurrences. rewrite filter_cons, filter_nil. by case_decide.
Qed.

Lemma occurrences_take_mono key l i j :
  i ≤ j → occurrences key (take i l) ≤ occurrences key (take j l).
Proof.
  intros Hij. replace j with (i + (j - i)) by lia.
  rewrite <-take_take_drop, occurrences_app. lia.
Qed.

Lemma length_canonical_names elems :
  length (canonical_names elems) = length elems.
Proof. apply length_imap. Qed.

Lemma lookup_canonical_names elems i e :
  elems !! i = Some e →
  canonical_names elems !! i = Some (canonical_name elems i e).
Proof.
  intros Hi. unfold canonical_names. by rewrite list_lookup_imap, Hi.
Qed.

(** Two atoms with the same uppercased symbol and the same ordinal are the
    same atom. *)
Lemma ordinal_inj elems i j ei ej :
  elems !! i = Some ei → elems !! j = Some ej →
  upper ei = upper ej →
  occurrences (upper ei) (take (S i) elems)
  = occurrences (upper ej) (take (S j) elems) →
  i = j.
Proof.
  intros Hi Hj Hk Hc. rewrite <-Hk in Hc.
  rewrite (occurrences_take_S _ _ _ _ Hi),
          (occurrences_take_S _ _ _ _ Hj) in Hc.
  rewrite !decide_True in Hc by done.
  destruct (decide (i = j)) as [|Hne]; [done|exfalso].
  destruct (decide (i < j)).
  - pose proof (occurrences_take_mono (upper ei) elems (S i) j ltac:(lia)).
    rewrite (occurrences_take_S _ _ _ _ Hi), decide_True in * by done. lia.
  - pose proof (occurrences_take_mono (upper ei) elems (S j) i ltac:(lia)).
    rewrite (occurrences_take_S _ _ _ _ Hj), decide_True in * by done. lia.
Qed.

Lemma NoDup_canonical_names elems :
  (∀ e, e ∈ elems → ends_with_digit e = false) →
  NoDup (canonical_names elems).
Proof.
  intros Hstem. apply NoDup_alt. intros i j x Hi Hj.
  unfold canonical_names in Hi, Hj.
  apply list_lookup_imap_Some in Hi as (ei & Hi & ->).
  apply list_lookup_imap_Some in Hj as (ej & Hj & Heq).
  unfold canonical_name in Heq.
  apply stem_numeral_inj in Heq as [Hk Hc];
    [| rewrite ends_with_digit_upper; eauto using list_elem_of_lookup_2
     | rewrite ends_with_digit_upper; eauto using list_elem_of_lookup_2
     | apply digits_pretty_nat..].
  apply (inj pretty) in Hc. by eapply ordinal_inj.
Qed.

(** ** The monad *)

Section Steps.
Context `{Collaborators}.

Lemma bind_ok {A B} (m : M A) (k : A → M B) w a w' :
  m w = (Ok a, w') → (m ≫= k) w = k a w'.
Proof. unfold mbind, M_bind. by intros ->. Qed.

Lemma getobj_ok r w m : heap w !! r = Some m → getobj r w = (Ok m, w).
Proof. unfold getobj. by intros ->. Qed.

Lemma index_ok {A} (a : list A) i x w : a !! i = Some x → index a i w = (Ok x, w).
Proof. unfold index. by intros ->. Qed.

Lemma world_eta w : mkWorld (heap w) (log w) (trace w) (env w) = w.
Proof. by destruct w. Qed.

Lemma set_name_id (m : Molecule) : set_name (name m) m = m.
Proof. by destruct m. Qed.

(** ** The renaming loop *)

Lemma rename_atoms_spec r k : ∀ i sufices w m,
  heap w !! r = Some m →
  i + k = length (name m) →
  length (element m) = length (name m) →
  (∀ key, default 0 (sufices !! key) = occurrences key (take i (element m))) →
  ∃ recs, rename_atoms r (seq i k) sufices w
    = (Ok (),
       mkWorld (<[r := set_name (take i (name m)
                                 ++ drop i (canonical_names (element m))) m]>
                  (heap w))
               (log w ++ recs) (trace w) (env w)).
Proof.
  induction k as [|k IH]; intros i sufices w m Hr Hlen Hel Hsuf.
  - exists []. simpl. unfold mret, M_ret.
    rewrite firstn_all2, skipn_all2, !app_nil_r, set_name_id
      by (rewrite ?length_canonical_names; lia).
    by rewrite list_insert_id, world_eta.
  - destruct (lookup_lt_is_Some_2 (element m) i) as [e He]; [lia|].
    destruct (lookup_lt_is_Some_2 (name m) i) as [old Hold]; [lia|].
    set (c := default 0 (sufices !! upper e) + 1).
    set (name1 := upper e +:+ pretty c).
    set (m1 := set_name (<[i := name1]> (name m)) m).
    set (w1 := mkWorld (<[r := m1]> (heap w))
                 (log w ++ [(INFO, "Rename atom " +:+ pretty i +:+ ": "
                                   +:+ ljust4 old +:+ " --> " +:+ ljust4 name1)])
                 (trace w) (env w)).
    destruct (IH (S i) (<[upper e := c]> sufices) w1 m1) as [recs Hrec].
    + simpl. apply list_lookup_insert_eq. by eapply lookup_lt_Some.
    + simpl. rewrite length_insert. lia.
    + simpl. by rewrite length_insert.
    + intros key. simpl. rewrite (occurrences_take_S _ _ _ _ He), <-Hsuf.
      destruct (decide (upper e = key)) as [<-|Hne].
      * by rewrite lookup_insert_eq.
      * rewrite lookup_insert_ne by done. lia.
    + eexists. simpl seq. simpl rename_atoms.
      rewrite (bind_ok _ _ _ _ _ (getobj_ok _ _ _ Hr)).
      rewrite (bind_ok _ _ _ _ _ (index_ok _ _ _ _ He)).
      rewrite lookup_insert_eq. simpl default.
      rewrite (bind_ok _ _ _ _ _ (index_ok _ _ _ _ Hold)).
      unfold mbind at 1, M_bind at 1. unfold logger at 1.
      unfold mbind at 1, M_bind at 1. unfold setobj at 1. simpl.
      fold c name1 m1. etrans; [exact Hrec|].
      simpl. f_equal. f_equal; [|by rewrite <-app_assoc].
      rewrite list_insert_insert_eq. f_equal.
      assert (name1 = canonical_name (element m) i e) as Hname.
      { unfold name1, canonical_name, c.
        by rewrite (occurrences_take_S _ _ _ _ He), decide_True, Hsuf. }
      unfold m1, set_name. simpl. f_equal.
      rewrite (take_S_r _ _ name1) by (apply list_lookup_insert_eq; lia).
      rewrite take_insert_ge by lia.
      rewrite <-app_assoc. f_equal. simpl.
      rewrite Hname. symmetry. apply drop_S.
      by apply lookup_canonical_names.
Qed.

(** ** What [_canonicalizeAtomNames] builds *)


Lemma lookup_snoc {A} (l : list A) x : (l ++ [x]) !! length l = Some x.
Proof. by apply list_lookup_middle. Qed.

Lemma insert_snoc {A} (l : list A) x y : <[length l := y]> (l ++ [x]) = l ++ [y].
Proof. rewrite insert_app_r_alt by lia. by rewrite Nat.sub_diag. Qed.

Lemma canonicalize_spec r w m :
  heap w !! r = Some m → wf_molecule m → 0 < numAtoms m →
  ∃ recs, _canonicalizeAtomNames r w
    = (Ok (length (heap w)),
       mkWorld (heap w ++ [canonicalized m]) (log w ++ recs) (trace w) (env w)).
Proof.
  intros Hr (Hel & Hseg & Hres) Hn. unfold numAtoms in *.
  set (m1 := set_segid (replicate (length (segid m)) "L") m).
  set (m2 := set_resname (replicate (length (resname m1)) "MOL") m1).
  set (w2 := mkWorld (heap w ++ [m2])
               (log w ++ [(INFO, "Rename segment to L");
                          (INFO, "Rename residue to MOL")])
               (trace w) (env w)).
  destruct (rename_atoms_spec (length (heap w)) (length (name m2)) 0 ∅ w2 m2)
    as [recs Hloop].
  { apply lookup_snoc. }
  { done. }
  { done. }
  { intros key. by rewrite lookup_empty. }
  eexists. unfold _canonicalizeAtomNames.
  unfold mbind at 1, M_bind at 1, copy at 1. rewrite Hr.
  unfold mbind at 1, M_bind at 1, getobj at 1. simpl heap. rewrite lookup_snoc.
  unfold mbind at 1, M_bind at 1, setobj at 1. simpl heap. rewrite insert_snoc.
  unfold mbind at 1, M_bind at 1, getobj at 1. simpl heap. rewrite lookup_snoc.
  fold m1.
  assert (segid m1 !! 0 = Some "L") as ->%(index_ok _ _ _ _)%(bind_ok _ _ _ _ _).
  { apply lookup_replicate_2. lia. }
  unfold mbind at 1, M_bind at 1, logger at 1.
  unfold mbind at 1, M_bind at 1, setobj at 1. simpl heap. rewrite insert_snoc.
  unfold mbind at 1, M_bind at 1, getobj at 1. simpl heap. rewrite lookup_snoc.
  fold m2.
  assert (resname m2 !! 0 = Some "MOL")
    as ->%(index_ok _ _ _ _)%(bind_ok _ _ _ _ _).
  { apply lookup_replicate_2. simpl. lia. }
  unfold mbind at 1, M_bind at 1, logger at 1. simpl log. simpl trace.
  simpl env. simpl heap. rewrite <-app_assoc. simpl app. fold w2.
  unfold numAtoms. rewrite (bind_ok _ _ _ _ _ Hloop).
  unfold mret, M_ret. f_equal. simpl. rewrite insert_snoc.
  f_equal; [|by rewrite <-app_assoc].
  f_equal. f_equal. unfold canonicalized, set_name, numAtoms. simpl.
  by rewrite Hseg, Hres.
Qed.





Global Instance grows_preorder : PreOrder grows.
Proof.
  split; [by intros h r|]. intros h1 h2 h3 H12 H23 r Hr.
  rewrite H23, H12; [done..|]. apply lookup_lt_is_Some.
  rewrite H12 by done. by apply lookup_lt_is_Some.
Qed.

Lemma grows_length h h' : grows h h' → length h ≤ length h'.
Proof.
  intros Hg. destruct (decide (length h = 0)) as [->|]; [lia|].
  assert (length h - 1 < length h') as Hlt; [|lia].
  apply lookup_lt_is_Some. rewrite Hg by lia. apply lookup_lt_is_Some. lia.
Qed.

Global Instance same_except_preorder r : PreOrder (same_except r).
Proof.
  split; [by intros h|]. intros h1 h2 h3 [L12 H12] [L23 H23].
  split; [congruence|]. intros r' Hr'. by rewrite H23, H12.
Qed.

Global Instance frame_preorder P Hp : PreOrder Hp → PreOrder (frame P Hp).
Proof.
  intros HH. split.
  - intros w. split; [done|]. split; [done|]. exists []. by rewrite app_nil_r.
  - intros w1 w2 w3 (Ha & La & ta & Ta & Pa & Ea) (Hb & Lb & tb & Tb & Pb & Eb).
    split; [by etrans|]. split; [by etrans|]. exists (ta ++ tb).
    rewrite Tb, Ta, <-app_assoc. split; [done|]. split; [by apply Forall_app|].
    intros [-> ->]%app_eq_nil. by rewrite Eb, Ea.
Qed.

Lemma behaves_ret {A} R E (a : A) : Reflexive R → behaves R E (mret a).
Proof. intros ? w. by split. Qed.

Lemma behaves_raise {A} R E e : Reflexive R → E e → behaves R E (@raise _ _ A e).
Proof. intros ? ? w. split; [done|]. by intros ? [= <-]. Qed.

Lemma behaves_bind {A B} R E (m : M A) (k : A → M B) :
  Transitive R → behaves R E m → (∀ a, behaves R E (k a)) →
  behaves R E (m ≫= k).
Proof.
  intros ? Hm Hk w. destruct (Hm w) as [HR HE].
  unfold mbind, M_bind. destruct (m w) as [[a|e] w1]; simpl in *.
  - destruct (Hk a w1) as [HR' HE']. split; [by etrans|done].
  - split; [done|]. intros ? [= <-]. by apply HE.
Qed.

Section Primitives.
Context (P : Event → Prop) (Hp : relation (list Molecule)) `{!PreOrder Hp}.
Context (E : exn → Prop) (Hforeign : ∀ e, E (Foreign e)).

Lemma frame_emit ev e w : P ev → frame P Hp w (emit ev e w).
Proof.
  intros Hev. split; [done|]. split; [done|]. exists [ev]. split; [done|].
  split; [by apply Forall_singleton|done].
Qed.

Lemma behaves_lift {A} (r : string + A) : behaves (frame P Hp) E (lift r).
Proof. destruct r; [by apply behaves_raise; [apply _|] | apply behaves_ret, _]. Qed.

Lemma behaves_logger lvl msg : behaves (frame P Hp) E (logger lvl msg).
Proof.
  intros w. split; [|done]. split; [done|]. split; [by apply prefix_app_r|].
  exists []. by rewrite app_nil_r.
Qed.

Lemma behaves_getobj r : behaves (frame P Hp) E (getobj r).
Proof.
  intros w. unfold getobj. destruct (heap w !! r); (split; [done|]).
  - done.
  - by intros ? [= <-].
Qed.

Lemma behaves_setobj r m :
  (∀ h, Hp h (<[r := m]> h)) → behaves (frame P Hp) E (setobj r m).
Proof.
  intros Hset w. split; [|done]. split; [apply Hset|]. split; [done|].
  exists []. by rewrite app_nil_r.
Qed.

Lemma behaves_copy r :
  (∀ h m, Hp h (h ++ [m])) → behaves (frame P Hp) E (copy r).
Proof.
  intros Hnew w. unfold copy. destruct (heap w !! r); (split; [|simpl]).
  - split; [apply Hnew|]. split; [done|]. exists []. by rewrite app_nil_r.
  - done.
  - done.
  - by intros ? [= <-].
Qed.

Lemma behaves_index {A} (a : list A) i :
  E IndexError → behaves (frame P Hp) E (index a i).
Proof.
  intros ?. unfold index.
  destruct (a !! i); [apply behaves_ret, _ | by apply behaves_raise; [apply _|]].
Qed.

Lemma behaves_py_assert b :
  E AssertionError → behaves (frame P Hp) E (py_assert b).
Proof.
  intros ?. destruct b; [apply behaves_ret, _ | by apply behaves_raise; [apply _|]].
Qed.

Lemma behaves_observe {A} (f : Env → string + A) :
  behaves (frame P Hp) E (observe f).
Proof. intros w. unfold observe. apply behaves_lift. Qed.

Lemma behaves_write m path :
  P (EvWrite path) → behaves (frame P Hp) E (write m path).
Proof.
  intros Hev w. unfold write. destruct (Molecule_write m path (env w)) as [r e].
  destruct (behaves_lift r (emit (EvWrite path) e w)) as [HR HE].
  split; [|done]. etrans; [by apply frame_emit|done].
Qed.

Lemma behaves_subprocess_call cmd cwd :
  P (EvCall cmd cwd) → behaves (frame P Hp) E (subprocess_call cmd cwd).
Proof.
  intros Hev w. unfold subprocess_call.
  destruct (os_call cmd cwd (env w)) as [r e].
  destruct (behaves_lift r (emit (EvCall cmd cwd) e w)) as [HR HE].
  split; [|done]. etrans; [by apply frame_emit|done].
Qed.

End Primitives.

End Steps.

Section Blocks.
Context `{Collaborators}.

Lemma same_except_insert r m h : same_except r h (<[r := m]> h).
Proof.
  split; [apply length_insert|]. intros r' Hr'. by apply list_lookup_insert_ne.
Qed.

(** [mol = mol.copy()] followed by code that changes the copy only. *)
Lemma behaves_copy_fresh {B} P E r (k : ref → M B) :
  (∀ e, E (Foreign e)) →
  (∀ r1, behaves (frame P (same_except r1)) E (k r1)) →
  behaves (frame P grows) E (copy r ≫= k).
Proof.
  intros HE Hk w. unfold mbind, M_bind, copy.
  destruct (heap w !! r) as [m|]; [|split; [done|by intros ? [= <-]]].
  set (w1 := mkWorld _ _ _ _).
  destruct (Hk (length (heap w)) w1) as [([Hlen Hsame] & Hlog & Htrace) Herr].
  split; [|done]. split; [|done].
  intros r' Hr'. rewrite Hsame by lia. simpl. by apply lookup_app_l.
Qed.

Lemma behaves_with_TemporaryDirectory {A} P Hp `{!PreOrder Hp} E
    (body : string → M A) :
  (∀ d, P (EvMkdtemp d)) → (∀ d, P (EvCleanup d)) →
  (∀ d, behaves (frame P Hp) E (body d)) →
  behaves (frame P Hp) E (with_TemporaryDirectory body).
Proof.
  intros Hmk Hcl Hbody w. unfold with_TemporaryDirectory.
  destruct (mkdtemp (env w)) as [d e].
  destruct (Hbody d (emit (EvMkdtemp d) e w)) as [HR HE].
  destruct (body d (emit (EvMkdtemp d) e w)) as [r w']. simpl in *.
  split; [|done].
  etrans; [by apply frame_emit|]. etrans; [done|]. by apply frame_emit.
Qed.

End Blocks.

Ltac behaves_step :=
  lazymatch goal with
  | |- behaves _ _ (mbind _ (copy _)) => apply behaves_copy_fresh; [ | intros ?]
  | |- behaves _ _ (mbind _ _) => apply behaves_bind; [apply _ | | intros ?]
  | |- behaves _ _ (mret _) => apply behaves_ret; apply _
  | |- behaves _ _ (raise _) => apply behaves_raise; [apply _ | ]
  | |- behaves _ _ (logger _ _) => apply behaves_logger
  | |- behaves _ _ (getobj _) => apply behaves_getobj
  | |- behaves _ _ (setobj _ _) => apply behaves_setobj
  | |- behaves _ _ (index _ _) => apply behaves_index
  | |- behaves _ _ (py_assert _) => apply behaves_py_assert
  | |- behaves _ _ (observe _) => apply behaves_observe
  | |- behaves _ _ (write _ _) => apply behaves_write
  | |- behaves _ _ (subprocess_call _ _) => apply behaves_subprocess_call
  | |- behaves _ _ (match ?x with _ => _ end) => destruct x
  | |- behaves _ _ (let _ := _ in _) => lazy zeta
  end.

Ltac behaves_steps := repeat behaves_step; try apply _.

Section Strategies.
Context `{Collaborators}.

Section Errors.
Context (P : Event → Prop) (E : exn → Prop).
Context (Hforeign : ∀ e, E (Foreign e)) (Hindex : E IndexError).

Lemma rename_atoms_behaves r range : ∀ sufices,
  behaves (frame P (same_except r)) E (rename_atoms r range sufices).
Proof.
  induction range as [|i range IH]; intros sufices; simpl.
  - behaves_step.
  - behaves_steps; auto using same_except_insert.
Qed.

Lemma canonicalize_behaves r :
  behaves (frame P grows) E (_canonicalizeAtomNames r).
Proof.
  apply behaves_copy_fresh; [done|]. intros r1.
  behaves_steps; auto using same_except_insert, rename_atoms_behaves.
Qed.

Context (Hassert : E AssertionError) (Hruntime : ∀ msg, E (RuntimeError msg)).

Lemma gaff_strategy_behaves Hp `{!PreOrder Hp} r method acCharges netcharge d :
  (∀ f, P (EvWrite (path_join d f))) → (∀ cmd, P (EvCall cmd d)) →
  behaves (frame P Hp) E (gaff_strategy r method acCharges netcharge d).
Proof. intros ??. unfold gaff_strategy. behaves_steps; auto. Qed.

Lemma cgenff_strategy_behaves Hp `{!PreOrder Hp} r netcharge d :
  (∀ f, P (EvWrite (path_join d f))) → (∀ cmd, P (EvCall cmd d)) →
  behaves (frame P Hp) E (cgenff_strategy r netcharge d).
Proof. intros ??. unfold cgenff_strategy. behaves_steps; auto. Qed.

End Errors.

End Strategies.


Section Orchestrator.
Context `{Collaborators}.
Context (E : exn → Prop).
Context (Hforeign : ∀ e, E (Foreign e)) (Hindex : E IndexError).
Context (Hassert : E AssertionError) (Hruntime : ∀ msg, E (RuntimeError msg)).

Lemma workspace_body_behaves P Hp `{!PreOrder Hp} r method acCharges netcharge d :
  (∀ f, P (EvWrite (path_join d f))) → (∀ cmd, P (EvCall cmd d)) →
  (method ∉ fftypemethods → E (ValueError ("Invalid method " +:+ method))) →
  behaves (frame P Hp) E
    (logger DEBUG ("Temporary directory: " +:+ d);;
     if bool_decide (method ∈ ["GAFF"; "GAFF2"]) then
       gaff_strategy r method acCharges netcharge d
     else if bool_decide (method = "CGenFF_2b6") then
       cgenff_strategy r netcharge d
     else
       raise (ValueError ("Invalid method " +:+ method))).
Proof.
  intros ?? Hinv. behaves_step; [behaves_step; apply _|].
  case_bool_decide as Hgaff; [by apply gaff_strategy_behaves|].
  case_bool_decide as Hcgenff; [by apply cgenff_strategy_behaves|].
  behaves_step. apply Hinv. unfold fftypemethods.
  intros Hin. apply elem_of_cons in Hin as [?|Hin]; done.
Qed.

Lemma workspace_behaves Hp `{!PreOrder Hp} r method acCharges tmpDir netcharge :
  (method ∉ fftypemethods → E (ValueError ("Invalid method " +:+ method))) →
  behaves (frame any_event Hp) E (workspace r method acCharges tmpDir netcharge).
Proof.
  intros ?. apply behaves_with_TemporaryDirectory; [done..|]. intros d.
  by apply workspace_body_behaves.
Qed.

Lemma check_names_behaves P Hp `{!PreOrder Hp} r out :
  behaves (frame P Hp) E (check_names r out).
Proof.
  destruct out as [[[[[[prm names] elems] atomtypes] charges] masses] impropers].
  unfold check_names. behaves_steps; auto.
Qed.

Lemma backend_behaves mol rtfFile prmFile method acCharges tmpDir netcharge :
  (method ∉ fftypemethods → E (ValueError ("Invalid method " +:+ method))) →
  behaves (frame any_event grows) E
    (backend mol rtfFile prmFile method acCharges tmpDir netcharge).
Proof.
  intros ?. unfold backend.
  behaves_steps; auto using canonicalize_behaves.
  - apply workspace_behaves; [apply _|done].
  - apply check_names_behaves, _.
Qed.

Lemma reconcile_behaves P mol acCharges out :
  behaves (frame P grows) E (reconcile mol acCharges out).
Proof.
  destruct out as [[[[[[prm names] elems] atomtypes] charges] masses] impropers].
  unfold reconcile. behaves_steps; auto using same_except_insert.
Qed.

Lemma fftype_behaves mol rtfFile prmFile method acCharges tmpDir netcharge :
  (method ∉ fftypemethods →
   E (ValueError ("Invalid method " +:+ method +:+ ". Available methods "
                  +:+ join "," fftypemethods))) →
  (method = "CGenFF_2b6" → truthy acCharges = true → E (ValueError "acCharges")) →
  (netcharge = None → E (ValueError "cannot convert float NaN to integer")) →
  (netcharge = None →
   E (OverflowError "cannot convert float infinity to integer")) →
  behaves (frame any_event grows) E
    (fftype mol rtfFile prmFile method acCharges tmpDir netcharge).
Proof.
  intros Hval Hac Hnan Hinf. unfold fftype.
  case_bool_decide as Hin; simpl; [|behaves_step; by apply Hval].
  destruct (bool_decide (method = "CGenFF_2b6")) eqn:Hm; simpl.
  - destruct (truthy acCharges) eqn:Ht.
    + behaves_steps. apply Hac; [|done]. by apply bool_decide_eq_true in Hm.
    + behaves_steps; auto using reconcile_behaves.
      by apply backend_behaves.
  - behaves_steps; auto using reconcile_behaves.
    by apply backend_behaves.
Qed.

End Orchestrator.

(** * Configuration checks *)

Section Configuration.
Context `{Collaborators}.

(** C8.  The recognised values of [method] are exactly ['CGenFF_2b6'],
    ['GAFF'] and ['GAFF2'].  A call with any other [method] raises
    [ValueError] with a message that names the value and lists the three
    methods, and leaves the world as it found it; a call with one of the
    three never raises that error. *)
Theorem fftype_method_closed_set :
  (∀ method, method ∈ fftypemethods ↔
     method = "CGenFF_2b6" ∨ method = "GAFF" ∨ method = "GAFF2") ∧
  (∀ mol rtfFile prmFile method acCharges tmpDir netcharge w,
     method ∉ fftypemethods →
     fftype mol rtfFile prmFile method acCharges tmpDir netcharge w
     = (Err (ValueError ("Invalid method " +:+ method
                         +:+ ". Available methods CGenFF_2b6,GAFF,GAFF2")),
        w)) ∧
  (∀ mol rtfFile prmFile method acCharges tmpDir netcharge w,
     method ∈ fftypemethods →
     (fftype mol rtfFile prmFile method acCharges tmpDir netcharge w).1
     ≠ Err (ValueError ("Invalid method " +:+ method
                        +:+ ". Available methods CGenFF_2b6,GAFF,GAFF2"))).
Proof.
  split; [|split].
  - intros method. unfold fftypemethods.
    rewrite !elem_of_cons, elem_of_nil. tauto.
  - intros mol rtfFile prmFile method acCharges tmpDir netcharge w Hnot.
    unfold fftype. by rewrite bool_decide_eq_false_2.
  - intros mol rtfFile prmFile method acCharges tmpDir netcharge w Hin Herr.
    by destruct (fftype_behaves
      (λ e, e ≠ ValueError ("Invalid method " +:+ method
                            +:+ ". Available methods CGenFF_2b6,GAFF,GAFF2"))
      ltac:(done) ltac:(done) ltac:(done) ltac:(done)
      mol rtfFile prmFile method acCharges tmpDir netcharge
      ltac:(done) ltac:(done)
      ltac:(intros _ Heq; vm_compute in Heq; discriminate Heq) ltac:(done)
      w) as [_ Hexn]; eapply Hexn.
Qed.

(** C7.  A call with [method = 'CGenFF_2b6'] and a charge scheme (a
    non-empty [acCharges]) raises [ValueError('acCharges')] and leaves the
    world as it found it: nothing is logged, no object is created, and the
    trace shows no directory, no file and no process. *)
Theorem fftype_cgenff_rejects_acCharges
    mol rtfFile prmFile scheme tmpDir netcharge w :
  scheme ≠ "" →
  fftype mol rtfFile prmFile "CGenFF_2b6" (Some scheme) tmpDir netcharge w
  = (Err (ValueError "acCharges"), w).
Proof.
  intros Hs. unfold fftype. simpl. by rewrite bool_decide_eq_false_2.
Qed.

End Configuration.

(** * Reconciliation *)

Section Reconciliation.
Context `{Collaborators}.

Lemma bind_Ok_inv {A B} (m : M A) (k : A → M B) w b w' :
  (m ≫= k) w = (Ok b, w') → ∃ a w1, m w = (Ok a, w1) ∧ k a w1 = (Ok b, w').
Proof.
  unfold mbind, M_bind. destruct (m w) as [[a|e] w1]; [eauto|done].
Qed.

Lemma bind_run {A B} (m : M A) (k : A → M B) w :
  (m ≫= k) w = match m w with
               | (Ok a, w1) => k a w1
               | (Err e, w1) => (Err e, w1)
               end.
Proof. done. Qed.


(** [fftype] once the two configuration checks have passed: the net charge
    is settled, and either that raises or the backend starts. *)
Lemma fftype_checked mol rtfFile prmFile method acCharges tmpDir netcharge w m :
  method ∈ fftypemethods →
  ¬ (method = "CGenFF_2b6" ∧ truthy acCharges = true) →
  heap w !! mol = Some m →
  fftype mol rtfFile prmFile method acCharges tmpDir netcharge w
  = match netcharge_used m netcharge with
    | Ok nc =>
        (backend mol rtfFile prmFile method acCharges tmpDir nc
         ≫= reconcile mol acCharges) (after_netcharge netcharge w)
    | Err e => (Err e, w)
    end.
Proof.
  intros Hin Hac Hm. unfold fftype.
  rewrite bool_decide_eq_true_2 by done. change (negb true) with false.
  cbv iota.
  assert (bool_decide (method = "CGenFF_2b6") && truthy acCharges = false) as ->.
  { apply not_true_is_false. rewrite andb_true_iff, bool_decide_eq_true. tauto. }
  destruct netcharge as [n|]; [done|].
  rewrite bind_run. rewrite bind_run, (getobj_ok _ _ _ Hm).
  unfold netcharge_used. by destruct (py_int _).
Qed.

(** The reconciliation of lines 180-189 in a world where [mol] is [m]. *)
Lemma reconcile_spec mol m acCharges (prm : ParameterSet)
    (names elems atomtypes : list string)
    (charges masses : list float) (impropers : list (list nat)) w :
  heap w !! mol = Some m →
  reconcile mol acCharges
    (prm, names, elems, atomtypes, charges, masses, impropers) w
  = if np_all_eq (element m) elems
    then (Ok (prm, length (heap w)),
          mkWorld (heap w ++ [typed m acCharges atomtypes charges masses impropers])
                  (log w) (trace w) (env w))
    else (Err AssertionError, w).
Proof.
  intros Hm. unfold reconcile.
  rewrite (bind_ok _ _ _ _ _ (getobj_ok _ _ _ Hm)).
  destruct (np_all_eq (element m) elems); [|done].
  unfold py_assert. unfold mbind at 1, M_bind at 1, mret at 1, M_ret at 1.
  unfold mbind at 1, M_bind at 1, copy at 1. rewrite Hm.
  unfold mbind at 1, M_bind at 1, getobj at 1. simpl heap. rewrite lookup_snoc.
  unfold mbind at 1, M_bind at 1, setobj at 1. simpl heap. rewrite insert_snoc.
  unfold mbind at 1, M_bind at 1, getobj at 1. simpl heap. rewrite lookup_snoc.
  unfold mbind at 1, M_bind at 1, setobj at 1. simpl heap. rewrite insert_snoc.
  unfold mbind at 1, M_bind at 1, getobj at 1. simpl heap. rewrite lookup_snoc.
  unfold mbind at 1, M_bind at 1, setobj at 1. simpl heap. rewrite insert_snoc.
  destruct acCharges as [scheme|].
  - unfold mbind at 1, M_bind at 1.
    unfold mbind at 1, M_bind at 1, getobj at 1. simpl heap. rewrite lookup_snoc.
    unfold setobj. simpl heap. by rewrite insert_snoc.
  - done.
Qed.


Lemma backend_grows mol rtfFile prmFile method acCharges tmpDir netcharge w :
  frame any_event grows w
    (backend mol rtfFile prmFile method acCharges tmpDir netcharge w).2.
Proof. by apply (backend_behaves all_exn). Qed.

Lemma fftype_grows mol rtfFile prmFile method acCharges tmpDir netcharge w :
  frame any_event grows w
    (fftype mol rtfFile prmFile method acCharges tmpDir netcharge w).2.
Proof. by apply (fftype_behaves all_exn). Qed.

Lemma heap_after_netcharge netcharge w :
  heap (after_netcharge netcharge w) = heap w.
Proof. by destruct netcharge. Qed.

(** A call that returns has passed both configuration checks. *)
Lemma fftype_Ok_checked mol rtfFile prmFile method acCharges tmpDir netcharge
    w res w' :
  fftype mol rtfFile prmFile method acCharges tmpDir netcharge w = (Ok res, w') →
  method ∈ fftypemethods ∧ ¬ (method = "CGenFF_2b6" ∧ truthy acCharges = true).
Proof.
  unfold fftype. case_bool_decide as Hin; [|done]. simpl negb. cbv iota.
  intros Hrun. split; [done|]. intros [-> Ht]. by rewrite Ht in Hrun.
Qed.

(** C1.  When [fftype] returns [(prm, r')], [r'] is a new object: every object
    that existed before the call, the caller's molecule among them, has the
    content it had.  The new object is the caller's molecule with [atomtype],
    [masses] and [impropers] replaced by what the backend produced, and with
    [charge] replaced by the backend's charges exactly when [acCharges] is
    not [None]. *)
Theorem fftype_typedMolecule mol rtfFile prmFile method acCharges tmpDir
    netcharge w m prm r' w' :
  heap w !! mol = Some m →
  fftype mol rtfFile prmFile method acCharges tmpDir netcharge w
  = (Ok (prm, r'), w') →
  ∃ nc w1 names elems atomtypes charges masses impropers,
    netcharge_used m netcharge = Ok nc ∧
    backend mol rtfFile prmFile method acCharges tmpDir nc
      (after_netcharge netcharge w)
    = (Ok (prm, names, elems, atomtypes, charges, masses, impropers), w1) ∧
    length (heap w) ≤ r' ∧
    (∀ r, r < length (heap w) → heap w' !! r = heap w !! r) ∧
    heap w' !! mol = Some m ∧
    heap w' !! r'
    = Some (mkMolecule (name m) (element m)
              (match acCharges with Some _ => charges | None => charge m end)
              atomtypes masses impropers (segid m) (resname m)).
Proof.
  intros Hm Hrun. destruct (fftype_Ok_checked _ _ _ _ _ _ _ _ _ _ Hrun) as [Hin Hac].
  pose proof (fftype_grows mol rtfFile prmFile method acCharges tmpDir
                netcharge w) as (Hgrow & _). rewrite Hrun in Hgrow.
  rewrite (fftype_checked _ _ _ _ _ _ _ _ m) in Hrun by done.
  destruct (netcharge_used m netcharge) as [nc|e]; [|done].
  apply bind_Ok_inv in Hrun
    as ([[[[[[prm' names] elems] atomtypes] charges] masses] impropers]
        & w1 & Hback & Hrest).
  pose proof (backend_grows mol rtfFile prmFile method acCharges tmpDir
                nc (after_netcharge netcharge w))
    as (Hgrow1 & _).
  rewrite Hback, heap_after_netcharge in Hgrow1. simpl in Hgrow1.
  assert (mol < length (heap w)) as Hlt by (by eapply lookup_lt_Some).
  assert (heap w1 !! mol = Some m) as Hm1 by (by rewrite Hgrow1).
  rewrite (reconcile_spec _ _ _ _ _ _ _ _ _ _ _ Hm1) in Hrest.
  destruct (np_all_eq (element m) elems); [|done].
  injection Hrest as -> <- <-.
  exists nc, w1, names, elems, atomtypes, charges, masses, impropers.
  pose proof (grows_length _ _ Hgrow1).
  split; [done|]. split; [done|]. split; [done|]. split; [done|].
  split; [by rewrite Hgrow|]. simpl. apply lookup_snoc.
Qed.

End Reconciliation.

(** * Dispatch *)

Section Dispatch.
Context `{Collaborators}.

Lemma bind_assoc_run {A B C} (m : M A) (k1 : A → M B) (k2 : B → M C) w :
  ((m ≫= k1) ≫= k2) w = (m ≫= λ a, k1 a ≫= k2) w.
Proof. unfold mbind, M_bind. by destruct (m w) as [[a|e] w1]. Qed.


(** C5 (amended).  A call with a non-empty [rtfFile] and a non-empty
    [prmFile] that passes the configuration checks and has its net charge
    (given, or derived at line 101 without an exception; an exception there
    ends the call with nothing done) takes the direct-file path whatever
    [method] is.  The trace and the environment are untouched
    (no directory, no file, no process) and no renamed copy is made; the
    parameter set is [CharmmParameterSet(rtfFile, prmFile)] and the tuple is
    [readRTF(rtfFile)].  The parsed elements are checked against the element
    array of the molecule as given, by [np.all(mol.element == elements)]; the
    parsed names play no role in the outcome. *)
Theorem fftype_direct_file mol rtf par method acCharges tmpDir netcharge w m :
  rtf ≠ "" → par ≠ "" →
  method ∈ fftypemethods →
  ¬ (method = "CGenFF_2b6" ∧ truthy acCharges = true) →
  heap w !! mol = Some m →
  let w1 := add_log (INFO, "Reading FF parameters from " +:+ rtf +:+ " and "
                           +:+ par)
                    (after_netcharge netcharge w) in
  fftype mol (Some rtf) (Some par) method acCharges tmpDir netcharge w
  = match netcharge_used m netcharge with
    | Err e => (Err e, w)
    | Ok _ =>
        match CharmmParameterSet rtf par (env w), readRTF rtf (env w) with
        | inl e, _ => (Err (Foreign e), w1)
        | inr _, inl e => (Err (Foreign e), w1)
        | inr prm, inr (names, elems, atomtypes, charges, masses, impropers) =>
            if np_all_eq (element m) elems
            then (Ok (prm, length (heap w)),
                  add_object (mkMolecule (name m) (element m)
                                (match acCharges with
                                 | Some _ => charges
                                 | None => charge m
                                 end)
                                atomtypes masses impropers (segid m)
                                (resname m))
                             w1)
            else (Err AssertionError, w1)
        end
    end.
Proof.
  intros Hrtf Hpar Hin Hac Hm w1.
  rewrite (fftype_checked _ _ _ _ _ _ _ _ m) by done.
  destruct (netcharge_used m netcharge) as [nc|e]; [|done].
  unfold backend. simpl truthy. rewrite !bool_decide_eq_false_2 by done.
  simpl negb. simpl andb. cbv iota. simpl default.
  rewrite bind_run. rewrite bind_run. unfold logger at 1.
  fold (add_log (INFO, "Reading FF parameters from " +:+ rtf +:+ " and "
                       +:+ par)
                (after_netcharge netcharge w)).
  fold w1. rewrite bind_run. unfold observe at 1.
  assert (env w1 = env w) as -> by (by destruct netcharge).
  destruct (CharmmParameterSet rtf par (env w)) as [e|prm]; [done|].
  simpl lift. unfold mret at 1, M_ret at 1. rewrite bind_run. unfold observe at 1.
  assert (env w1 = env w) as -> by (by destruct netcharge).
  destruct (readRTF rtf (env w))
    as [e|[[[[[names elems] atomtypes] charges] masses] impropers]].
  { by destruct (CharmmParameterSet rtf par (env w)). }
  simpl lift. unfold mret at 1, M_ret at 1. unfold mret at 1, M_ret at 1.
  assert (heap w1 !! mol = Some m) as Hm1.
  { unfold w1. simpl. by rewrite heap_after_netcharge. }
  rewrite (reconcile_spec _ _ _ _ _ _ _ _ _ _ _ Hm1).
  assert (heap w1 = heap w) as Hh.
  { unfold w1. simpl. by rewrite heap_after_netcharge. }
  unfold add_object. by rewrite Hh.
Qed.


(** The external path: renaming, then the [with] block, then the two
    checks and the molecule returned. *)
Lemma backend_external mol rtfFile prmFile method acCharges tmpDir netcharge w :
  truthy rtfFile && truthy prmFile = false →
  (backend mol rtfFile prmFile method acCharges tmpDir netcharge
   ≫= reconcile mol acCharges) w
  = match _canonicalizeAtomNames mol
            (add_log (INFO, "Assigning atom types with " +:+ method) w) with
    | (Ok renamed_mol, w2) =>
        (workspace renamed_mol method acCharges tmpDir netcharge
         ≫= λ out, check_names renamed_mol out ≫= reconcile mol acCharges) w2
    | (Err e, w2) => (Err e, w2)
    end.
Proof.
  intros Hdirect. unfold backend. rewrite Hdirect.
  rewrite bind_assoc_run, bind_run. unfold logger at 1.
  fold (add_log (INFO, "Assigning atom types with " +:+ method) w).
  rewrite bind_assoc_run, bind_run.
  destruct (_canonicalizeAtomNames mol _) as [[renamed_mol|e] w2]; [|done].
  by rewrite bind_assoc_run.
Qed.

(** After the [with] block nothing is done to the outside world. *)
Lemma after_workspace_behaves renamed_mol mol acCharges out :
  behaves (frame no_event grows) all_exn
    (check_names renamed_mol out ≫= reconcile mol acCharges).
Proof.
  behaves_steps;
    [apply check_names_behaves; first [done | apply _]
    | by apply reconcile_behaves].
Qed.

(** What the [with] block does to the outside world, however it is left:
    it creates the temporary directory, works in the working directory only
    and removes the temporary directory last. *)
Lemma workspace_trace r method acCharges tmpDir netcharge w :
  let d := (mkdtemp (env w)).1 in
  let w' := (workspace r method acCharges tmpDir netcharge w).2 in
  ∃ t e, trace w' = trace w ++ EvMkdtemp d :: t ++ [EvCleanup d] ∧
         env w' = rmtree d e ∧
         Forall (in_dir (default d tmpDir)) t.
Proof.
  unfold workspace, with_TemporaryDirectory.
  destruct (mkdtemp (env w)) as [d e]. simpl.
  set (dir := match tmpDir with Some d0 => d0 | None => d end).
  set (body := (_ ≫= _)).
  assert (behaves (frame (in_dir dir) eq) all_exn body) as Hbody.
  { apply workspace_body_behaves; try done.
    - apply _.
    - intros f. by exists f. }
  destruct (Hbody (emit (EvMkdtemp d) e w)) as [(_ & _ & t & Ht & Hdir & _) _].
  destruct (body (emit (EvMkdtemp d) e w)) as [res w2]. simpl in *.
  exists t, (env w2). rewrite Ht.
  split; [by rewrite <-!app_assoc|]. split; [done|]. by destruct tmpDir.
Qed.

(** The same for the [with] block and everything after it. *)
Lemma workspace_and_checks_trace renamed_mol mol method acCharges tmpDir
    netcharge w :
  let d := (mkdtemp (env w)).1 in
  let w' :=
    ((workspace renamed_mol method acCharges tmpDir netcharge
      ≫= λ out, check_names renamed_mol out ≫= reconcile mol acCharges) w).2 in
  ∃ t e, trace w' = trace w ++ EvMkdtemp d :: t ++ [EvCleanup d] ∧
         env w' = rmtree d e ∧
         Forall (in_dir (default d tmpDir)) t.
Proof.
  destruct (workspace_trace renamed_mol method acCharges tmpDir netcharge w)
    as (t & e & Ht & He & Hdir).
  simpl in *. exists t, e. rewrite bind_run.
  destruct (workspace _ _ _ _ _ w) as [[out|err] w3]; simpl in *; [|done].
  destruct (after_workspace_behaves renamed_mol mol acCharges out w3)
    as [(_ & _ & t' & Ht' & Hnone & Henv) _].
  destruct t' as [|ev t']; [|by apply Forall_cons in Hnone as [[] _]].
  rewrite Ht', app_nil_r, Henv by done. done.
Qed.

(** Renaming does nothing to the outside world. *)
Lemma canonicalize_outside mol w :
  let w' := (_canonicalizeAtomNames mol w).2 in
  trace w' = trace w ∧ env w' = env w.
Proof.
  destruct (canonicalize_behaves no_event all_exn ltac:(done) ltac:(done) mol w)
    as [(_ & _ & t & Ht & Hnone & Henv) _].
  destruct t as [|ev t]; [|by apply Forall_cons in Hnone as [[] _]].
  simpl. rewrite Ht, app_nil_r, Henv by done. done.
Qed.

(** C9.  Take a call on the external path.  Whatever its outcome, either it
    fails before the [with] block and has done nothing to the outside world,
    or the first thing it did there is the creation of the temporary
    directory [d] and the last is the removal of [d] with all its content;
    in between, files are written and processes run in the working directory
    only, which is [tmpDir] if the caller gave one and [d] otherwise, and no
    other directory is removed, so a directory supplied by the caller is used
    and left in place.  When the configuration checks pass and the molecule
    has at least one atom the call does reach the [with] block, unless the
    derivation of the net charge at line 101 raises, which ends the call
    with nothing done. *)
Theorem fftype_workspace_released mol rtfFile prmFile method acCharges tmpDir
    netcharge w :
  truthy rtfFile && truthy prmFile = false →
  let d := (mkdtemp (env w)).1 in
  let run := fftype mol rtfFile prmFile method acCharges tmpDir netcharge w in
  let released :=
    ∃ t e, trace run.2 = trace w ++ EvMkdtemp d :: t ++ [EvCleanup d] ∧
           env run.2 = rmtree d e ∧
           Forall (in_dir (default d tmpDir)) t in
  (((∃ e, run.1 = Err e) ∧ trace run.2 = trace w ∧ env run.2 = env w)
   ∨ released) ∧
  (∀ m, method ∈ fftypemethods →
        ¬ (method = "CGenFF_2b6" ∧ truthy acCharges = true) →
        heap w !! mol = Some m → wf_molecule m → 0 < numAtoms m →
        match netcharge_used m netcharge with
        | Ok _ => released
        | Err e => run = (Err e, w)
        end).
Proof.
  intros Hdirect d run released.
  assert (∀ nc w0, trace w0 = trace w → env w0 = env w →
            let run0 := (backend mol rtfFile prmFile method acCharges tmpDir nc
                         ≫= reconcile mol acCharges) w0 in
            ((∃ e, run0.1 = Err e ∧
                   (_canonicalizeAtomNames mol
                      (add_log (INFO, "Assigning atom types with " +:+ method)
                         w0)).1 = Err e) ∧
             trace run0.2 = trace w ∧ env run0.2 = env w)
            ∨ ∃ t e, trace run0.2 = trace w ++ EvMkdtemp d :: t
                                    ++ [EvCleanup d] ∧
                     env run0.2 = rmtree d e ∧
                     Forall (in_dir (default d tmpDir)) t) as Hext.
  { intros nc w0 Ht0 He0. cbv zeta. rewrite backend_external by done.
    pose proof (canonicalize_outside mol
                  (add_log (INFO, "Assigning atom types with " +:+ method) w0))
      as [Ht Henv].
    destruct (_canonicalizeAtomNames mol _) as [[renamed_mol|e] w2];
      simpl in Ht, Henv.
    - right.
      destruct (workspace_and_checks_trace renamed_mol mol method acCharges
                  tmpDir nc w2) as (t & e & Htr & Hen & Hdir).
      assert (env w2 = env w) as Hew by (by rewrite Henv).
      assert (trace w2 = trace w) as Htw by (by rewrite Ht).
      rewrite Hew, Htw in Htr. rewrite Hew in Hen, Hdir.
      by exists t, e.
    - left. simpl. split; [by exists e|]. by rewrite Ht, Henv. }
  assert (run = fftype mol rtfFile prmFile method acCharges tmpDir netcharge w)
    as Hrun by done.
  split.
  - unfold fftype in Hrun.
    case_bool_decide as Hin; [|left; rewrite Hrun; eauto].
    change (negb true) with false in Hrun. cbv iota in Hrun.
    destruct (bool_decide (method = "CGenFF_2b6") && truthy acCharges);
      [left; rewrite Hrun; eauto|].
    destruct netcharge as [n|].
    + destruct (Hext n w eq_refl eq_refl) as [[(e & He & _) Hsame]|Hrel].
      * left. rewrite Hrun. split; [exists e; exact He|exact Hsame].
      * right. unfold released. rewrite Hrun. exact Hrel.
    + rewrite bind_run, bind_run in Hrun. unfold getobj at 1 in Hrun.
      destruct (heap w !! mol) as [m|]; [|left; rewrite Hrun; eauto].
      cbv beta iota in Hrun.
      destruct (py_int (py_round (np_sum (charge m)))) as [z| |];
        [|left; rewrite Hrun; eauto..].
      set (nc := PyInt z).
      set (w0 := add_log
                   (WARNING, "Using atomic charges from molecule object to "
                             +:+ "calculate net charge") w).
      change (run = (backend mol rtfFile prmFile method acCharges tmpDir nc
                     ≫= reconcile mol acCharges) w0) in Hrun.
      destruct (Hext nc w0 eq_refl eq_refl) as [[(e & He & _) Hsame]|Hrel].
      * left. rewrite Hrun. split; [exists e; exact He|exact Hsame].
      * right. unfold released. rewrite Hrun. exact Hrel.
  - intros m Hin Hac Hm Hwf Hn. unfold released. rewrite Hrun.
    rewrite (fftype_checked _ _ _ _ _ _ _ _ m) by done.
    destruct (netcharge_used m netcharge) as [nc|e]; [|done].
    destruct (Hext nc (after_netcharge netcharge w))
      as [[(e & _ & Herr) _]|Hrel]; [by destruct netcharge..| |done].
    destruct (canonicalize_spec mol
                (add_log (INFO, "Assigning atom types with " +:+ method)
                   (after_netcharge netcharge w)) m) as [recs Hcanon];
      [by simpl; rewrite heap_after_netcharge|done..|].
    by rewrite Hcanon in Herr.
Qed.

(** On the external path the renamed copy is made, and stays in the store,
    unless the derivation of the net charge raises. *)
Lemma fftype_external_renames mol rtfFile prmFile method acCharges tmpDir
    netcharge w m :
  truthy rtfFile && truthy prmFile = false →
  method ∈ fftypemethods →
  ¬ (method = "CGenFF_2b6" ∧ truthy acCharges = true) →
  heap w !! mol = Some m → wf_molecule m → 0 < numAtoms m →
  let run := fftype mol rtfFile prmFile method acCharges tmpDir netcharge w in
  match netcharge_used m netcharge with
  | Ok _ =>
      heap run.2 !! length (heap w) = Some (canonicalized m) ∧
      (INFO, "Assigning atom types with " +:+ method) ∈ log run.2
  | Err e => run = (Err e, w)
  end.
Proof.
  intros Hdirect Hin Hac Hm Hwf Hn. cbv zeta.
  rewrite (fftype_checked _ _ _ _ _ _ _ _ m) by done.
  destruct (netcharge_used m netcharge) as [nc|e]; [|done].
  rewrite backend_external by done.
  set (w1 := add_log _ (after_netcharge netcharge w)).
  assert (heap w1 = heap w) as Hh.
  { unfold w1. simpl. apply heap_after_netcharge. }
  destruct (canonicalize_spec mol w1 m) as [recs Hcanon]; [by rewrite Hh|done..|].
  rewrite Hcanon, Hh. set (w2 := mkWorld _ _ _ _).
  set (rest := (_ ≫= _)).
  assert (behaves (frame any_event grows) all_exn rest) as Hrest.
  { unfold rest. behaves_steps.
    - apply workspace_behaves; first [done | apply _].
    - apply check_names_behaves; first [done | apply _].
    - by apply reconcile_behaves. }
  destruct (Hrest w2) as [(Hheap & Hlog & _) _].
  simpl. split.
  - rewrite Hheap; [apply lookup_snoc|]. simpl. rewrite length_app. simpl. lia.
  - eapply elem_of_prefix; [|exact Hlog]. simpl.
    rewrite !elem_of_app, elem_of_cons. auto.
Qed.

(** C10.  Presence of [acCharges] in the compatibility check, and of
    [rtfFile] and [prmFile] in the dispatch, is Python truth: with
    [method = 'CGenFF_2b6'] and [acCharges = ''] the call never raises
    [ValueError('acCharges')]; a call with [rtfFile = ''] or [prmFile = '']
    does what the call with that argument [None] does, and it takes the
    external path: the molecule is renamed and the backend of [method] is
    announced in the log (unless the derivation of the net charge at line
    101 raises first, which ends the call with nothing done). *)
Theorem fftype_truthiness :
  (∀ mol rtfFile prmFile tmpDir netcharge w,
     (fftype mol rtfFile prmFile "CGenFF_2b6" (Some "") tmpDir netcharge w).1
     ≠ Err (ValueError "acCharges")) ∧
  (∀ mol prmFile method acCharges tmpDir netcharge w,
     fftype mol (Some "") prmFile method acCharges tmpDir netcharge w
     = fftype mol None prmFile method acCharges tmpDir netcharge w) ∧
  (∀ mol rtfFile method acCharges tmpDir netcharge w,
     fftype mol rtfFile (Some "") method acCharges tmpDir netcharge w
     = fftype mol rtfFile None method acCharges tmpDir netcharge w) ∧
  (∀ mol rtfFile prmFile method acCharges tmpDir netcharge w m,
     rtfFile = Some "" ∨ prmFile = Some "" →
     method ∈ fftypemethods →
     ¬ (method = "CGenFF_2b6" ∧ truthy acCharges = true) →
     heap w !! mol = Some m → wf_molecule m → 0 < numAtoms m →
     let run :=
       fftype mol rtfFile prmFile method acCharges tmpDir netcharge w in
     match netcharge_used m netcharge with
     | Ok _ =>
         heap run.2 !! length (heap w) = Some (canonicalized m) ∧
         (INFO, "Assigning atom types with " +:+ method) ∈ log run.2
     | Err e => run = (Err e, w)
     end).
Proof.
  split; [|split; [|split]].
  - intros mol rtfFile prmFile tmpDir netcharge w Herr.
    by destruct (fftype_behaves (λ e, e ≠ ValueError "acCharges")
      ltac:(done) ltac:(done) ltac:(done) ltac:(done)
      mol rtfFile prmFile "CGenFF_2b6" (Some "") tmpDir netcharge
      ltac:(done) ltac:(done) ltac:(done) ltac:(done) w) as [_ Hexn];
      eapply Hexn.
  - intros. unfold fftype, backend. done.
  - intros mol rtfFile method acCharges tmpDir netcharge w.
    unfold fftype, backend. simpl truthy. simpl negb.
    by rewrite !andb_false_r.
  - intros mol rtfFile prmFile method acCharges tmpDir netcharge w m Hempty.
    apply fftype_external_renames. destruct Hempty as [-> | ->]; [done|].
    apply andb_false_r.
Qed.

(** ** The two consistency checks *)

Lemma all_eq2_true a b : all_eq2 a b = true ↔ a = b.
Proof.
  revert b. induction a as [|x a IH]; intros [|y b]; simpl; try done.
  rewrite andb_true_iff, bool_decide_eq_true, IH.
  split; [by intros [-> ->] | by intros [= -> ->]].
Qed.

(** On arrays of the same length [np.all(a == b)] is equality. *)
Lemma np_all_eq_same_length a b :
  length a = length b → np_all_eq a b = true ↔ a = b.
Proof.
  intros Hlen. unfold np_all_eq.
  rewrite (proj2 (Nat.eqb_eq _ _) Hlen). apply all_eq2_true.
Qed.

(** A result comes back from the external path only if the names that the
    backend produced pass the comparison with the renamed molecule. *)
Lemma backend_Ok_names mol rtfFile prmFile method acCharges tmpDir netcharge
    w m prm names elems atomtypes charges masses impropers w' :
  truthy rtfFile && truthy prmFile = false →
  heap w !! mol = Some m → wf_molecule m → 0 < numAtoms m →
  backend mol rtfFile prmFile method acCharges tmpDir netcharge w
  = (Ok (prm, names, elems, atomtypes, charges, masses, impropers), w') →
  np_all_eq (canonical_names (element m)) names = true.
Proof.
  intros Hdirect Hm Hwf Hn. unfold backend. rewrite Hdirect.
  rewrite bind_run. unfold logger at 1.
  set (w1 := mkWorld _ _ _ _).
  destruct (canonicalize_spec mol w1 m) as [recs Hcanon]; [done..|].
  rewrite (bind_ok _ _ _ _ _ Hcanon). set (w2 := mkWorld _ _ _ _).
  intros Hrun. apply bind_Ok_inv in Hrun
    as ([[[[[[prm1 names1] elems1] atomtypes1] charges1] masses1] impropers1]
        & w3 & Hws & Hrest).
  pose proof (workspace_behaves all_exn ltac:(done) ltac:(done) eq
                (length (heap w1)) method acCharges tmpDir netcharge
                ltac:(done) w2) as [(Hheap & _) _].
  rewrite Hws in Hheap. simpl in Hheap.
  assert (heap w3 !! length (heap w1) = Some (canonicalized m)) as Hren.
  { rewrite <-Hheap. apply lookup_snoc. }
  unfold check_names in Hrest.
  rewrite (bind_ok _ _ _ _ _ (getobj_ok _ _ _ Hren)) in Hrest.
  simpl in Hrest.
  destruct (np_all_eq (canonical_names (element m)) names1) eqn:Hcmp; [|done].
  by injection Hrest as _ <- _ _ _ _ _ _.
Qed.

(** A result comes back from [fftype] only if the elements that the backend
    produced pass the comparison with the molecule as given; and the
    returned molecule has the element array of the molecule as given. *)
Lemma fftype_Ok_elements mol rtfFile prmFile method acCharges tmpDir netcharge
    w m prm r' w' :
  heap w !! mol = Some m →
  fftype mol rtfFile prmFile method acCharges tmpDir netcharge w
  = (Ok (prm, r'), w') →
  (∃ nc w1 names elems atomtypes charges masses impropers,
     netcharge_used m netcharge = Ok nc ∧
     backend mol rtfFile prmFile method acCharges tmpDir nc
       (after_netcharge netcharge w)
     = (Ok (prm, names, elems, atomtypes, charges, masses, impropers), w1) ∧
     np_all_eq (element m) elems = true) ∧
  element <$> heap w' !! r' = Some (element m).
Proof.
  intros Hm Hrun.
  destruct (fftype_Ok_checked _ _ _ _ _ _ _ _ _ _ Hrun) as [Hin Hac].
  rewrite (fftype_checked _ _ _ _ _ _ _ _ m) in Hrun by done.
  destruct (netcharge_used m netcharge) as [nc|e]; [|done].
  apply bind_Ok_inv in Hrun
    as ([[[[[[prm' names] elems] atomtypes] charges] masses] impropers]
        & w1 & Hback & Hrest).
  pose proof (backend_grows mol rtfFile prmFile method acCharges tmpDir
                nc (after_netcharge netcharge w))
    as (Hgrow1 & _).
  rewrite Hback, heap_after_netcharge in Hgrow1. simpl in Hgrow1.
  assert (heap w1 !! mol = Some m) as Hm1.
  { rewrite Hgrow1; [done|]. by eapply lookup_lt_Some. }
  rewrite (reconcile_spec _ _ _ _ _ _ _ _ _ _ _ Hm1) in Hrest.
  destruct (np_all_eq (element m) elems) eqn:Hcmp; [|done].
  injection Hrest as -> <- <-. split.
  - by exists nc, w1, names, elems, atomtypes, charges, masses, impropers.
  - simpl. by rewrite lookup_snoc.
Qed.

End Dispatch.

(** * Renaming *)

Section Renaming.
Context `{Collaborators}.

(** C2 (amended).  For a molecule with at least one atom,
    [_canonicalizeAtomNames] returns a new object and leaves every existing
    object, the input among them, as it was.  In the new object every
    [segid] is ['L'], every [resname] is ['MOL'], and the name of atom [i],
    of element [e], is [e.upper()] followed by the number of atoms up to and
    including [i] whose uppercased element symbol is [e.upper()].  The names
    are pairwise distinct when no element symbol ends with a decimal
    digit. *)
Theorem canonicalizeAtomNames_renames mol w m :
  heap w !! mol = Some m → wf_molecule m → 0 < numAtoms m →
  ∃ w' m',
    _canonicalizeAtomNames mol w = (Ok (length (heap w)), w') ∧
    (∀ r, r < length (heap w) → heap w' !! r = heap w !! r) ∧
    heap w' !! length (heap w) = Some m' ∧
    element m' = element m ∧
    segid m' = replicate (numAtoms m) "L" ∧
    resname m' = replicate (numAtoms m) "MOL" ∧
    length (name m') = numAtoms m ∧
    (∀ i e, element m !! i = Some e →
       name m' !! i
       = Some (upper e
               +:+ pretty (occurrences (upper e) (take (S i) (element m))))) ∧
    ((∀ e, e ∈ element m → ends_with_digit e = false) → NoDup (name m')).
Proof.
  intros Hm Hwf Hn. destruct (canonicalize_spec mol w m) as [recs Hrun]; [done..|].
  eexists _, (canonicalized m). split; [exact Hrun|]. simpl.
  split; [intros r Hr; by apply lookup_app_l|].
  split; [apply lookup_snoc|]. split; [done|]. split; [done|]. split; [done|].
  destruct Hwf as (Hel & _).
  split; [by rewrite length_canonical_names|].
  split; [intros i e; apply lookup_canonical_names|].
  apply NoDup_canonical_names.
Qed.

End Renaming.


(** * Beyond the claims *)

(** ** What a call leaves alone *)

Section Stability.
Context `{Collaborators}.

(** X1.  Whatever its arguments and however it ends, a call of [fftype]
    changes no object that existed before it (the molecule of the caller
    among them), and only adds to the log and to the record of what was done
    outside. *)
Theorem fftype_keeps_store_and_log mol rtfFile prmFile method acCharges tmpDir
    netcharge w :
  let w' := (fftype mol rtfFile prmFile method acCharges tmpDir netcharge w).2 in
  (∀ r, r < length (heap w) → heap w' !! r = heap w !! r) ∧
  log w `prefix_of` log w' ∧
  trace w `prefix_of` trace w'.
Proof.
  destruct (fftype_grows mol rtfFile prmFile method acCharges tmpDir netcharge w)
    as (Hheap & Hlog & t & Ht & _).
  simpl. split; [exact Hheap|]. split; [exact Hlog|]. rewrite Ht.
  by apply prefix_app_r.
Qed.

(** X5.  With a topology file and a parameter file, the outcome of a call
    (result, store, log and outside world) depends neither on [method], as
    long as it is accepted, nor on [tmpDir], nor on the value of an explicit
    [netcharge]: none of them is read on this path. *)
Theorem fftype_direct_file_ignores mol rtf par method1 method2 acCharges
    tmpDir1 tmpDir2 w :
  rtf ≠ "" → par ≠ "" →
  method1 ∈ fftypemethods → method2 ∈ fftypemethods →
  ¬ (method1 = "CGenFF_2b6" ∧ truthy acCharges = true) →
  ¬ (method2 = "CGenFF_2b6" ∧ truthy acCharges = true) →
  (∀ netcharge,
     fftype mol (Some rtf) (Some par) method1 acCharges tmpDir1 netcharge w
     = fftype mol (Some rtf) (Some par) method2 acCharges tmpDir2 netcharge w) ∧
  (∀ n1 n2,
     fftype mol (Some rtf) (Some par) method1 acCharges tmpDir1 (Some n1) w
     = fftype mol (Some rtf) (Some par) method2 acCharges tmpDir2 (Some n2) w).
Proof.
  intros Hrtf Hpar Hin1 Hin2 Hac1 Hac2.
  assert (∀ method, method ∈ fftypemethods →
            ¬ (method = "CGenFF_2b6" ∧ truthy acCharges = true) →
            ∀ tmpDir netcharge,
              fftype mol (Some rtf) (Some par) method acCharges tmpDir netcharge w
              = (nc ← match netcharge with
                      | None =>
                          m ← getobj mol;
                          match py_int (py_round (np_sum (charge m))) with
                          | Integer z =>
                              logger WARNING "Using atomic charges from molecule object to calculate net charge";;
                              mret (PyInt z)
                          | NotANumber =>
                              raise (ValueError "cannot convert float NaN to integer")
                          | Infinity =>
                              raise (OverflowError "cannot convert float infinity to integer")
                          end
                      | Some n => mret n
                      end;
                 out ← (logger INFO ("Reading FF parameters from " +:+ rtf
                                     +:+ " and " +:+ par);;
                        prm ← observe (CharmmParameterSet rtf par);
                        '(names, elements, atomtypes, charges, masses, impropers) ←
                          observe (readRTF rtf);
                        mret (prm, names, elements, atomtypes, charges, masses,
                              impropers));
                 reconcile mol acCharges out) w) as Hnorm.
  { intros method Hin Hac tmpDir netcharge. unfold fftype.
    rewrite bool_decide_eq_true_2 by done. change (negb true) with false.
    cbv iota.
    assert (bool_decide (method = "CGenFF_2b6") && truthy acCharges = false) as ->.
    { apply not_true_is_false. rewrite andb_true_iff, bool_decide_eq_true. tauto. }
    unfold backend. simpl truthy. rewrite !bool_decide_eq_false_2 by done.
    reflexivity. }
  split.
  - intros netcharge. by rewrite !Hnorm.
  - intros n1 n2. by rewrite !Hnorm.
Qed.

End Stability.

(** ** More on the renaming *)

Section Ordinals.
Context `{Collaborators}.

Lemma wf_canonicalized m : wf_molecule m → wf_molecule (canonicalized m).
Proof.
  intros (Hel & Hseg & Hres). unfold wf_molecule, numAtoms in *. simpl.
  by rewrite length_canonical_names, !length_replicate.
Qed.

Lemma canonicalized_idem m :
  wf_molecule m → canonicalized (canonicalized m) = canonicalized m.
Proof.
  intros (Hel & _). unfold canonicalized, numAtoms in *. simpl.
  by rewrite length_canonical_names, Hel.
Qed.

(** X6.  Renaming is idempotent: renaming the copy that
    [_canonicalizeAtomNames] returned gives an object equal to it. *)
Theorem canonicalizeAtomNames_idempotent mol w m :
  heap w !! mol = Some m → wf_molecule m → 0 < numAtoms m →
  ∃ w1 w2 m1,
    _canonicalizeAtomNames mol w = (Ok (length (heap w)), w1) ∧
    _canonicalizeAtomNames (length (heap w)) w1 = (Ok (S (length (heap w))), w2) ∧
    heap w2 !! length (heap w) = Some m1 ∧
    heap w2 !! S (length (heap w)) = Some m1.
Proof.
  intros Hm Hwf Hn.
  destruct (canonicalize_spec mol w m) as [recs1 Hrun1]; [done..|].
  set (w1 := mkWorld _ _ _ _) in Hrun1.
  assert (heap w1 !! length (heap w) = Some (canonicalized m)) as Hm1
    by apply lookup_snoc.
  destruct (canonicalize_spec (length (heap w)) w1 (canonicalized m))
    as [recs2 Hrun2]; [done|by apply wf_canonicalized|..].
  { unfold numAtoms in *. simpl. rewrite length_canonical_names.
    destruct Hwf as (-> & _). done. }
  assert (length (heap w1) = S (length (heap w))) as Hlen.
  { unfold w1. simpl. rewrite length_app. simpl. lia. }
  rewrite Hlen, canonicalized_idem in Hrun2 by done.
  eexists w1, _, (canonicalized m). split; [exact Hrun1|].
  split; [exact Hrun2|]. cbn [heap]. split.
  - rewrite lookup_app_l by (rewrite Hlen; lia). exact Hm1.
  - rewrite <-Hlen. apply lookup_snoc.
Qed.

Lemma occurrences_ordinal key elems : ∀ j,
  1 ≤ j ≤ occurrences key elems →
  ∃ i e, elems !! i = Some e ∧ upper e = key ∧
         occurrences key (take (S i) elems) = j.
Proof.
  induction elems as [|x l IH] using rev_ind; intros j Hj.
  - unfold occurrences in Hj. simpl in Hj. lia.
  - rewrite occurrences_app in Hj.
    destruct (decide (j ≤ occurrences key l)) as [Hle|Hgt].
    + destruct (IH j) as (i & e & Hi & He & Hocc); [lia|].
      exists i, e. pose proof (lookup_lt_Some _ _ _ Hi).
      split; [by apply lookup_app_l_Some|]. split; [done|].
      by rewrite take_app_le by lia.
    + exists (length l), x.
      assert (occurrences key [x] = 1 ∧ upper x = key) as [Hone Hx].
      { unfold occurrences in *. rewrite filter_cons, filter_nil in *.
        case_decide; simpl in *; [done|lia]. }
      split; [apply list_lookup_middle; done|]. split; [done|].
      rewrite take_app_ge by lia.
      replace (S (length l) - length l) with 1 by lia. simpl.
      rewrite occurrences_app. lia.
Qed.

Lemma occurrences_take_le key l i : occurrences key (take i l) ≤ occurrences key l.
Proof.
  rewrite <-(take_drop i l) at 2. rewrite occurrences_app. lia.
Qed.

(** X7.  The ordinals of an element are gap-free: if the upper-cased
    symbol [key] occurs [n] times, then for each [j] from 1 to [n] some atom
    of that element is named [key] followed by [j]; and the name of every
    atom is its upper-cased symbol followed by an ordinal between 1 and the
    number of atoms of that symbol. *)
Theorem canonicalizeAtomNames_ordinals mol w m :
  heap w !! mol = Some m → wf_molecule m → 0 < numAtoms m →
  ∃ w' m',
    _canonicalizeAtomNames mol w = (Ok (length (heap w)), w') ∧
    heap w' !! length (heap w) = Some m' ∧
    (∀ key j, 1 ≤ j ≤ occurrences key (element m) →
       ∃ i e, element m !! i = Some e ∧ upper e = key ∧
              name m' !! i = Some (key +:+ pretty j)) ∧
    (∀ i e, element m !! i = Some e →
       ∃ j, 1 ≤ j ≤ occurrences (upper e) (element m) ∧
            name m' !! i = Some (upper e +:+ pretty j)).
Proof.
  intros Hm Hwf Hn.
  destruct (canonicalize_spec mol w m) as [recs Hrun]; [done..|].
  eexists _, (canonicalized m). split; [exact Hrun|]. simpl.
  split; [apply lookup_snoc|]. split.
  - intros key j Hj.
    destruct (occurrences_ordinal key (element m) j Hj)
      as (i & e & Hi & He & Hocc).
    exists i, e. split; [done|]. split; [done|].
    rewrite (lookup_canonical_names _ _ _ Hi). unfold canonical_name.
    by rewrite He, Hocc.
  - intros i e Hi.
    exists (occurrences (upper e) (take (S i) (element m))).
    split; [|by apply lookup_canonical_names].
    split; [|apply occurrences_take_le].
    rewrite (occurrences_take_S _ _ _ _ Hi), decide_True by done. lia.
Qed.

Lemma canonicalize_no_atoms mol w m :
  heap w !! mol = Some m → segid m = [] →
  _canonicalizeAtomNames mol w
  = (Err IndexError, mkWorld (heap w ++ [m]) (log w) (trace w) (env w)).
Proof.
  intros Hm Hseg. unfold _canonicalizeAtomNames.
  unfold mbind at 1, M_bind at 1, copy at 1. rewrite Hm.
  unfold mbind at 1, M_bind at 1, getobj at 1. simpl heap. rewrite lookup_snoc.
  unfold mbind at 1, M_bind at 1, setobj at 1. simpl heap. rewrite insert_snoc.
  unfold mbind at 1, M_bind at 1, getobj at 1. simpl heap. rewrite lookup_snoc.
  rewrite Hseg. simpl. destruct m; simpl in *. by rewrite Hseg.
Qed.

(** The external path on a molecule without atoms. *)
Lemma fftype_external_no_atoms mol rtfFile prmFile method acCharges tmpDir
    netcharge w m :
  truthy rtfFile && truthy prmFile = false →
  method ∈ fftypemethods →
  ¬ (method = "CGenFF_2b6" ∧ truthy acCharges = true) →
  heap w !! mol = Some m → wf_molecule m → numAtoms m = 0 →
  fftype mol rtfFile prmFile method acCharges tmpDir netcharge w
  = match netcharge_used m netcharge with
    | Ok _ =>
        (Err IndexError,
         add_object m (add_log (INFO, "Assigning atom types with " +:+ method)
                         (after_netcharge netcharge w)))
    | Err e => (Err e, w)
    end.
Proof.
  intros Hdirect Hin Hac Hm (_ & Hseg & _) Hn.
  assert (segid m = []) as Hnil by (apply nil_length_inv; congruence).
  rewrite (fftype_checked _ _ _ _ _ _ _ _ m) by done.
  destruct (netcharge_used m netcharge) as [nc|e]; [|done].
  rewrite backend_external by done.
  rewrite (canonicalize_no_atoms mol _ m);
    [done|by simpl; rewrite heap_after_netcharge|done].
Qed.

(** X8.  Without both files, and with an accepted configuration, a molecule
    that has no atoms makes [fftype] raise before anything is done outside,
    and the molecule of the caller is as it was.  The exception is
    [IndexError] (from [mol.segid[0]] in the renaming), unless the
    derivation of the net charge at line 101 has raised before. *)
Theorem fftype_no_atoms mol rtfFile prmFile method acCharges tmpDir netcharge
    w m :
  truthy rtfFile && truthy prmFile = false →
  method ∈ fftypemethods →
  ¬ (method = "CGenFF_2b6" ∧ truthy acCharges = true) →
  heap w !! mol = Some m → wf_molecule m → numAtoms m = 0 →
  let run := fftype mol rtfFile prmFile method acCharges tmpDir netcharge w in
  run.1 = match netcharge_used m netcharge with
          | Ok _ => Err IndexError
          | Err e => Err e
          end ∧
  trace run.2 = trace w ∧ env run.2 = env w ∧ heap run.2 !! mol = Some m.
Proof.
  intros Hdirect Hin Hac Hm Hwf Hn. cbv zeta.
  rewrite (fftype_external_no_atoms _ _ _ _ _ _ _ _ m) by done.
  destruct (netcharge_used m netcharge) as [nc|e]; [|done].
  simpl. rewrite heap_after_netcharge.
  split; [done|]. split; [by destruct netcharge|]. split; [by destruct netcharge|].
  by apply lookup_app_l_Some.
Qed.

End Ordinals.

(** ** The steps of the two strategies *)

Section Tools.
Context `{Collaborators}.

Lemma follows_steps_foreign {A} steps first second e t :
  t `prefix_of` steps → follows_steps (A:=A) steps first second (Err (Foreign e)) t.
Proof. by intros ?. Qed.

Lemma follows_steps_all {A} steps first second (res : result A) :
  res ≠ Err AssertionError →
  (∀ msg, res = Err (RuntimeError msg) → RuntimeError msg = tool_failed second) →
  follows_steps steps first second res steps.
Proof.
  intros Hna Hrt. split; [done|]. split; [done|]. split; [done|].
  intros msg Hmsg. right. split; [by apply Hrt|done].
Qed.

Lemma gaff_strategy_events r method acCharges netcharge d w :
  let run := gaff_strategy r method acCharges netcharge d w in
  ∃ t, trace run.2 = trace w ++ t ∧
       follows_steps (gaff_events method acCharges netcharge d)
         "antechamber" "parmchk2" run.1 t.
Proof.
  cbv zeta. unfold gaff_strategy, gaff_events.
  unfold mbind, M_bind, getobj, write, subprocess_call, observe, lift, raise,
    mret, M_ret, emit.
  destruct (heap w !! r) as [m|] eqn:Hm; simpl.
  2:{ exists []. rewrite app_nil_r. split; [done|].
      apply follows_steps_foreign, prefix_nil. }
  destruct (Molecule_write _ _ _) as [[e1|[]] env1]; simpl.
  { eexists [_]. split; [done|]. apply follows_steps_foreign. by eexists. }
  destruct (os_call _ _ env1) as [[e2|c2] env2]; simpl.
  { eexists [_; _]. rewrite <-app_assoc. split; [done|].
    apply follows_steps_foreign. by eexists. }
  case_bool_decide; simpl.
  { eexists [_; _]. rewrite <-app_assoc. split; [done|].
    split; [by eexists|]. split; [done|]. split; [done|].
    intros msg [= <-]. by left. }
  destruct (os_call _ _ env2) as [[e3|c3] env3]; simpl.
  { eexists [_; _; _]. rewrite <-!app_assoc. split; [done|].
    by apply follows_steps_all. }
  case_bool_decide; simpl.
  { eexists [_; _; _]. rewrite <-!app_assoc. split; [done|].
    apply follows_steps_all; [done|]. by intros msg [= <-]. }
  destruct (AmberParameterSet _ _) as [e4|prm]; simpl.
  { eexists [_; _; _]. rewrite <-!app_assoc. split; [done|].
    by apply follows_steps_all. }
  rewrite Hm. simpl.
  destruct (readPREPI _ _ _) as [e5|[[[names atomtypes] charges] impropers]];
    simpl.
  { eexists [_; _; _]. rewrite <-!app_assoc. split; [done|].
    by apply follows_steps_all. }
  destruct (readFRCMOD _ _ _) as [e6|[masses elems]]; simpl.
  { eexists [_; _; _]. rewrite <-!app_assoc. split; [done|].
    by apply follows_steps_all. }
  eexists [_; _; _]. rewrite <-!app_assoc. split; [done|].
  by apply follows_steps_all.
Qed.

Lemma cgenff_strategy_events r netcharge d w :
  let run := cgenff_strategy r netcharge d w in
  ∃ t, trace run.2 = trace w ++ t ∧
       follows_steps (cgenff_events netcharge d)
         "match-typer" "match-typer" run.1 t.
Proof.
  cbv zeta. unfold cgenff_strategy, cgenff_events.
  unfold mbind, M_bind, getobj, write, subprocess_call, observe, lift, raise,
    mret, M_ret, emit.
  destruct (heap w !! r) as [m|]; simpl.
  2:{ exists []. rewrite app_nil_r. split; [done|].
      apply follows_steps_foreign, prefix_nil. }
  destruct (Molecule_write _ _ _) as [[e1|[]] env1]; simpl.
  { eexists [_]. split; [done|]. apply follows_steps_foreign. by eexists. }
  destruct (os_call _ _ env1) as [[e2|c2] env2]; simpl.
  { eexists [_; _]. rewrite <-app_assoc. split; [done|].
    by apply follows_steps_all. }
  case_bool_decide; simpl.
  { eexists [_; _]. rewrite <-app_assoc. split; [done|].
    apply follows_steps_all; [done|]. by intros msg [= <-]. }
  destruct (CharmmParameterSet _ _ _) as [e4|prm]; simpl.
  { eexists [_; _]. rewrite <-!app_assoc. split; [done|].
    by apply follows_steps_all. }
  destruct (readRTF _ _)
    as [e5|[[[[[names elems] atomtypes] charges] masses] impropers]]; simpl.
  { eexists [_; _]. rewrite <-!app_assoc. split; [done|].
    by apply follows_steps_all. }
  eexists [_; _]. rewrite <-!app_assoc. split; [done|].
  by apply follows_steps_all.
Qed.

Lemma workspace_gaff_events r method acCharges tmpDir netcharge w :
  method ∈ ["GAFF"; "GAFF2"] →
  let d := (mkdtemp (env w)).1 in
  let run := workspace r method acCharges tmpDir netcharge w in
  ∃ t, trace run.2 = trace w ++ EvMkdtemp d :: t ++ [EvCleanup d] ∧
       follows_steps (gaff_events method acCharges netcharge (default d tmpDir))
         "antechamber" "parmchk2" run.1 t.
Proof.
  intros Hgaff. destruct (mkdtemp (env w)) as [d e] eqn:Hmk. cbv zeta.
  set (dir := default d tmpDir).
  set (w1 := mkWorld (heap w)
               (log w ++ [(DEBUG, "Temporary directory: " +:+ dir)])
               (trace w ++ [EvMkdtemp d]) e).
  assert (workspace r method acCharges tmpDir netcharge w
          = let '(res, w2) := gaff_strategy r method acCharges netcharge dir w1 in
            (res, emit (EvCleanup d) (rmtree d (env w2)) w2)) as ->.
  { unfold workspace, with_TemporaryDirectory. rewrite Hmk.
    rewrite bool_decide_eq_true_2 by done. unfold dir. by destruct tmpDir. }
  destruct (gaff_strategy_events r method acCharges netcharge dir w1)
    as (t & Ht & Hsteps).
  destruct (gaff_strategy r method acCharges netcharge dir w1) as [res w2].
  simpl in *. exists t. by rewrite Ht, <-!app_assoc.
Qed.

Lemma workspace_cgenff_events r acCharges tmpDir netcharge w :
  let d := (mkdtemp (env w)).1 in
  let run := workspace r "CGenFF_2b6" acCharges tmpDir netcharge w in
  ∃ t, trace run.2 = trace w ++ EvMkdtemp d :: t ++ [EvCleanup d] ∧
       follows_steps (cgenff_events netcharge (default d tmpDir))
         "match-typer" "match-typer" run.1 t.
Proof.
  destruct (mkdtemp (env w)) as [d e] eqn:Hmk. cbv zeta.
  set (dir := default d tmpDir).
  set (w1 := mkWorld (heap w)
               (log w ++ [(DEBUG, "Temporary directory: " +:+ dir)])
               (trace w ++ [EvMkdtemp d]) e).
  assert (workspace r "CGenFF_2b6" acCharges tmpDir netcharge w
          = let '(res, w2) := cgenff_strategy r netcharge dir w1 in
            (res, emit (EvCleanup d) (rmtree d (env w2)) w2)) as ->.
  { unfold workspace, with_TemporaryDirectory. rewrite Hmk.
    unfold dir. by destruct tmpDir. }
  destruct (cgenff_strategy_events r netcharge dir w1) as (t & Ht & Hsteps).
  destruct (cgenff_strategy r netcharge dir w1) as [res w2].
  simpl in *. exists t. by rewrite Ht, <-!app_assoc.
Qed.

(** The checks after the [with] block raise no [RuntimeError] and do nothing
    to the outside world. *)
Lemma after_workspace_raises renamed_mol mol acCharges out :
  behaves (frame no_event grows) not_runtime
    (check_names renamed_mol out ≫= reconcile mol acCharges).
Proof.
  behaves_steps;
    [apply check_names_behaves; first [done | apply _]
    | by apply reconcile_behaves].
Qed.

Lemma follows_steps_Err {A B} steps first second e t :
  follows_steps (A:=A) steps first second (Err e) t →
  follows_steps (A:=B) steps first second (Err e) t.
Proof.
  intros (Hpre & _ & Has & Hrt). split; [done|]. split; [done|].
  split; [by intros [= ->]; apply Has|].
  intros msg [= ->]. by apply Hrt.
Qed.

(** From the [with] block to the whole call. *)
Lemma follows_steps_call steps first second mol method acCharges tmpDir
    netcharge w r d :
  (∃ t, trace (workspace r method acCharges tmpDir netcharge w).2
        = trace w ++ EvMkdtemp d :: t ++ [EvCleanup d] ∧
        follows_steps steps first second
          (workspace r method acCharges tmpDir netcharge w).1 t) →
  let run := (workspace r method acCharges tmpDir netcharge
              ≫= λ out, check_names r out ≫= reconcile mol acCharges) w in
  ∃ t, trace run.2 = trace w ++ EvMkdtemp d :: t ++ [EvCleanup d] ∧
       follows_steps steps first second run.1 t.
Proof.
  intros (t & Ht & Hsteps). cbv zeta. rewrite bind_run.
  destruct (workspace r method acCharges tmpDir netcharge w) as [[out|e] w3];
    simpl in *; [|exists t; split; [done|]; by eapply follows_steps_Err].
  destruct (after_workspace_raises r mol acCharges out w3)
    as [(_ & _ & t' & Ht' & Hnone & _) Hexn].
  destruct t' as [|ev t']; [|by apply Forall_cons in Hnone as [[] _]].
  rewrite app_nil_r in Ht'. exists t. rewrite Ht'. split; [done|].
  destruct Hsteps as (Hpre & Hok & _). rewrite (Hok out eq_refl).
  split; [done|]. split; [done|]. split; [done|].
  intros msg Hmsg. by destruct (Hexn _ Hmsg msg).
Qed.

(** The external path once the molecule has been renamed. *)
Lemma fftype_external_run mol rtfFile prmFile method acCharges tmpDir netcharge
    w m nc :
  truthy rtfFile && truthy prmFile = false →
  method ∈ fftypemethods →
  ¬ (method = "CGenFF_2b6" ∧ truthy acCharges = true) →
  heap w !! mol = Some m → wf_molecule m → 0 < numAtoms m →
  netcharge_used m netcharge = Ok nc →
  ∃ w2, trace w2 = trace w ∧ env w2 = env w ∧
    fftype mol rtfFile prmFile method acCharges tmpDir netcharge w
    = (workspace (length (heap w)) method acCharges tmpDir nc
       ≫= λ out, check_names (length (heap w)) out ≫= reconcile mol acCharges)
        w2.
Proof.
  intros Hdirect Hin Hac Hm Hwf Hn Hnc.
  rewrite (fftype_checked _ _ _ _ _ _ _ _ m), Hnc by done.
  rewrite backend_external by done.
  set (w1 := add_log _ (after_netcharge netcharge w)).
  assert (heap w1 = heap w) as Hh.
  { unfold w1. simpl. apply heap_after_netcharge. }
  destruct (canonicalize_spec mol w1 m) as [recs Hcanon]; [by rewrite Hh|done..|].
  rewrite Hcanon, Hh. eexists. split; [|split; [|reflexivity]].
  - simpl. by destruct netcharge.
  - simpl. by destruct netcharge.
Qed.

Lemma gaff_accepted method :
  method ∈ ["GAFF"; "GAFF2"] →
  method ∈ fftypemethods ∧ method ≠ "CGenFF_2b6".
Proof.
  intros Hgaff. split.
  - unfold fftypemethods. apply elem_of_cons in Hgaff as [->|Hgaff];
      [|apply list_elem_of_singleton in Hgaff as ->];
      rewrite !elem_of_cons; auto.
  - intros ->. apply elem_of_cons in Hgaff as [?|Hgaff]; [done|].
    by apply list_elem_of_singleton in Hgaff.
Qed.

(** A call with GAFF or GAFF2 that has its net charge [nc] follows the
    steps of the strategy for [nc]. *)
Lemma fftype_gaff_follows mol rtfFile prmFile method acCharges tmpDir netcharge
    w m nc :
  truthy rtfFile && truthy prmFile = false →
  method ∈ ["GAFF"; "GAFF2"] →
  heap w !! mol = Some m → wf_molecule m → 0 < numAtoms m →
  netcharge_used m netcharge = Ok nc →
  let d := (mkdtemp (env w)).1 in
  let run := fftype mol rtfFile prmFile method acCharges tmpDir netcharge w in
  ∃ t, trace run.2 = trace w ++ EvMkdtemp d :: t ++ [EvCleanup d] ∧
       follows_steps (gaff_events method acCharges nc (default d tmpDir))
         "antechamber" "parmchk2" run.1 t.
Proof.
  intros Hdirect Hgaff Hm Hwf Hn Hnc.
  destruct (gaff_accepted method Hgaff) as [Hin Hne].
  destruct (fftype_external_run mol rtfFile prmFile method acCharges tmpDir
              netcharge w m nc) as (w2 & Ht2 & He2 & ->);
    [done|done|tauto|done..|].
  cbv zeta. rewrite <-Ht2, <-He2.
  apply (follows_steps_call _ "antechamber" "parmchk2").
  by apply workspace_gaff_events.
Qed.

(** A call with CGenFF_2b6 that has its net charge [nc] follows the steps
    of the strategy for [nc]. *)
Lemma fftype_cgenff_follows mol rtfFile prmFile acCharges tmpDir netcharge
    w m nc :
  truthy rtfFile && truthy prmFile = false →
  truthy acCharges = false →
  heap w !! mol = Some m → wf_molecule m → 0 < numAtoms m →
  netcharge_used m netcharge = Ok nc →
  let d := (mkdtemp (env w)).1 in
  let run :=
    fftype mol rtfFile prmFile "CGenFF_2b6" acCharges tmpDir netcharge w in
  ∃ t, trace run.2 = trace w ++ EvMkdtemp d :: t ++ [EvCleanup d] ∧
       follows_steps (cgenff_events nc (default d tmpDir))
         "match-typer" "match-typer" run.1 t.
Proof.
  intros Hdirect Hfalsy Hm Hwf Hn Hnc.
  destruct (fftype_external_run mol rtfFile prmFile "CGenFF_2b6" acCharges tmpDir
              netcharge w m nc) as (w2 & Ht2 & He2 & ->); [done| |  |done..|].
  { unfold fftypemethods. apply list_elem_of_here. }
  { intros [_ Ht]. congruence. }
  cbv zeta. rewrite <-Ht2, <-He2.
  apply (follows_steps_call _ "match-typer" "match-typer").
  apply workspace_cgenff_events.
Qed.

(** X3.  Without both files and with method GAFF or GAFF2, on a molecule
    with atoms, once the call has its net charge [nc] (given, or derived at
    line 101; if the derivation raises, the call ends there with nothing
    done), what [fftype] does outside is: make a temporary directory;
    then, in the working directory ([tmpDir] if given, else the temporary
    one), write [mol.mol2], call antechamber with [nc] and call parmchk2, in
    this order and stopping at the first failure; then remove the temporary
    directory.  All three steps are done when the call returns or fails a
    consistency check; the only [RuntimeError]s are the two tool failures,
    antechamber's after two steps and parmchk2's after three. *)
Theorem fftype_gaff_steps mol rtfFile prmFile method acCharges tmpDir netcharge
    w m :
  truthy rtfFile && truthy prmFile = false →
  method ∈ ["GAFF"; "GAFF2"] →
  heap w !! mol = Some m → wf_molecule m → 0 < numAtoms m →
  let d := (mkdtemp (env w)).1 in
  let run := fftype mol rtfFile prmFile method acCharges tmpDir netcharge w in
  match netcharge_used m netcharge with
  | Err e => run = (Err e, w)
  | Ok nc =>
      let steps := gaff_events method acCharges nc (default d tmpDir) in
      ∃ t, trace run.2 = trace w ++ EvMkdtemp d :: t ++ [EvCleanup d] ∧
           t `prefix_of` steps ∧
           (∀ res, run.1 = Ok res → t = steps) ∧
           (run.1 = Err AssertionError → t = steps) ∧
           (∀ msg, run.1 = Err (RuntimeError msg) →
              (RuntimeError msg = tool_failed "antechamber" ∧
               t = take 2 steps) ∨
              (RuntimeError msg = tool_failed "parmchk2" ∧ t = steps))
  end.
Proof.
  intros Hdirect Hgaff Hm Hwf Hn. cbv zeta.
  destruct (netcharge_used m netcharge) as [nc|e] eqn:Hnc.
  - by apply (fftype_gaff_follows _ _ _ _ _ _ netcharge _ m).
  - destruct (gaff_accepted method Hgaff) as [Hin Hne].
    rewrite (fftype_checked _ _ _ _ _ _ _ _ m), Hnc; [done..|tauto|done].
Qed.

(** X4.  Without both files and with method CGenFF_2b6, on a molecule with
    atoms, once the call has its net charge [nc] (given, or derived at line
    101; if the derivation raises, the call ends there with nothing done),
    what [fftype] does outside is: make a temporary directory; then, in the
    working directory, write [mol.pdb] and call match-typer with [nc];
    then remove the temporary directory.  Both steps are done when the call
    returns, fails a consistency check, or raises the only [RuntimeError]
    there is, the failure of match-typer. *)
Theorem fftype_cgenff_steps mol rtfFile prmFile acCharges tmpDir netcharge w m :
  truthy rtfFile && truthy prmFile = false →
  truthy acCharges = false →
  heap w !! mol = Some m → wf_molecule m → 0 < numAtoms m →
  let d := (mkdtemp (env w)).1 in
  let run := fftype mol rtfFile prmFile "CGenFF_2b6" acCharges tmpDir netcharge w in
  match netcharge_used m netcharge with
  | Err e => run = (Err e, w)
  | Ok nc =>
      let steps := cgenff_events nc (default d tmpDir) in
      ∃ t, trace run.2 = trace w ++ EvMkdtemp d :: t ++ [EvCleanup d] ∧
           t `prefix_of` steps ∧
           (∀ res, run.1 = Ok res → t = steps) ∧
           (run.1 = Err AssertionError → t = steps) ∧
           (∀ msg, run.1 = Err (RuntimeError msg) →
              RuntimeError msg = tool_failed "match-typer" ∧ t = steps)
  end.
Proof.
  intros Hdirect Hfalsy Hm Hwf Hn. cbv zeta.
  destruct (netcharge_used m netcharge) as [nc|e] eqn:Hnc.
  - destruct (fftype_cgenff_follows mol rtfFile prmFile acCharges tmpDir
                netcharge w m nc) as (t & Ht & Hpre & Hok & Has & Hrt);
      [done..|].
    exists t. split; [done|]. split; [done|]. split; [done|]. split; [done|].
    intros msg Hmsg. destruct (Hrt msg Hmsg) as [[? Htake]|]; [|done].
    split; [done|]. rewrite Htake. apply take_ge.
    unfold cgenff_events. simpl. lia.
  - rewrite (fftype_checked _ _ _ _ _ _ _ _ m), Hnc; [done| |  |done].
    + unfold fftypemethods. apply list_elem_of_here.
    + intros [_ Ht]. congruence.
Qed.

End Tools.

(** ** The derived net charge *)

Section Derivation.
Context `{Collaborators}.

(** C6 (amended).  Take a call without [netcharge] that passes the
    configuration checks.  When the sum of the charges of the molecule
    converts to an integer [z = int(round(np.sum(mol.charge)))], the warning
    'Using atomic charges from molecule object to calculate net charge' is
    logged and the backend is started with [z] as its net charge; the
    warning is in the log when the call ends, however it ends.  Without
    both files, on a molecule with atoms, [z] is the net charge on the
    command line of the strategy: what is done in the working directory is
    the steps of the strategy of [method] for [z], in order (all of them
    when the call returns), so antechamber is called with [-nc str(z)] and
    match-typer with [-charge str(z)].  When the sum is NaN or infinite,
    line 101 raises [ValueError] or [OverflowError]: nothing is logged and
    nothing else is done. *)
Theorem fftype_derived_netcharge mol rtfFile prmFile method acCharges tmpDir w m :
  method ∈ fftypemethods →
  ¬ (method = "CGenFF_2b6" ∧ truthy acCharges = true) →
  heap w !! mol = Some m →
  let warning :=
    (WARNING, "Using atomic charges from molecule object to calculate net charge") in
  let run := fftype mol rtfFile prmFile method acCharges tmpDir None w in
  match py_int (py_round (np_sum (charge m))) with
  | Integer z =>
      run = (backend mol rtfFile prmFile method acCharges tmpDir (PyInt z)
             ≫= reconcile mol acCharges) (add_log warning w) ∧
      warning ∈ log run.2 ∧
      (truthy rtfFile && truthy prmFile = false →
       wf_molecule m → 0 < numAtoms m →
       let d := (mkdtemp (env w)).1 in
       let steps :=
         if bool_decide (method ∈ ["GAFF"; "GAFF2"])
         then gaff_events method acCharges (PyInt z) (default d tmpDir)
         else cgenff_events (PyInt z) (default d tmpDir) in
       ∃ t, trace run.2 = trace w ++ EvMkdtemp d :: t ++ [EvCleanup d] ∧
            t `prefix_of` steps ∧
            (∀ res, run.1 = Ok res → t = steps))
  | NotANumber =>
      run = (Err (ValueError "cannot convert float NaN to integer"), w)
  | Infinity =>
      run = (Err (OverflowError "cannot convert float infinity to integer"), w)
  end.
Proof.
  intros Hin Hac Hm. cbv zeta.
  pose proof (fftype_checked mol rtfFile prmFile method acCharges tmpDir None
                w m Hin Hac Hm) as Hrun.
  unfold netcharge_used in Hrun.
  destruct (py_int (py_round (np_sum (charge m)))) as [z| |] eqn:Hconv;
    [|exact Hrun..].
  set (warning := (WARNING, "Using atomic charges from molecule object to calculate net charge")).
  change (after_netcharge None w) with (add_log warning w) in Hrun.
  split; [exact Hrun|]. split.
  - assert (fftype mol rtfFile prmFile method acCharges tmpDir None w
            = fftype mol rtfFile prmFile method acCharges tmpDir
                (Some (PyInt z)) (add_log warning w)) as ->.
    { by rewrite Hrun, (fftype_checked _ _ _ _ _ _ (Some (PyInt z)) _ m). }
    pose proof (fftype_grows mol rtfFile prmFile method acCharges tmpDir
                  (Some (PyInt z)) (add_log warning w)) as (_ & Hlog & _).
    eapply elem_of_prefix; [|exact Hlog]. simpl.
    rewrite elem_of_app, elem_of_cons. auto.
  - intros Hdirect Hwf Hn.
    assert (netcharge_used m None = Ok (PyInt z)) as Hnc.
    { unfold netcharge_used. by rewrite Hconv. }
    case_bool_decide as Hgaff.
    + destruct (fftype_gaff_follows mol rtfFile prmFile method acCharges
                  tmpDir None w m (PyInt z)) as (t & Ht & Hpre & Hok & _);
        [done..|].
      by exists t.
    + assert (method = "CGenFF_2b6") as ->.
      { unfold fftypemethods in Hin.
        apply elem_of_cons in Hin as [?|Hin]; [done|]. by destruct Hgaff. }
      destruct (fftype_cgenff_follows mol rtfFile prmFile acCharges
                  tmpDir None w m (PyInt z)) as (t & Ht & Hpre & Hok & _);
        [done| |done..|].
      { apply not_true_is_false. tauto. }
      by exists t.
Qed.

End Derivation.

(** ** The exceptions of [fftype] *)

Section Taxonomy.
Context `{Collaborators}.
Context (E : exn → Prop) (Hforeign : ∀ e, E (Foreign e)).





End Taxonomy.

Section Exceptions.
Context `{Collaborators}.


End Exceptions.

(** ** What is logged *)

Section Logging.
Context `{Collaborators}.
Context (Q : Level * string → Prop).

Global Instance logged_preorder : PreOrder (logged Q).
Proof.
  split.
  - intros w. exists []. by rewrite app_nil_r.
  - intros w1 w2 w3 (la & Ha & Qa) (lb & Hb & Qb). exists (la ++ lb).
    rewrite Hb, Ha, <-app_assoc. split; [done|]. by apply Forall_app.
Qed.

(** An operation that leaves the log alone. *)
Lemma logged_silent {A} (m : M A) :
  (∀ w, log (m w).2 = log w) → behaves (logged Q) all_exn m.
Proof.
  intros Hm w. split; [|done]. exists []. by rewrite app_nil_r, Hm.
Qed.

Lemma logged_logger lvl msg :
  Q (lvl, msg) → behaves (logged Q) all_exn (logger lvl msg).
Proof.
  intros HQ w. split; [|done]. exists [(lvl, msg)]. split; [done|].
  by apply Forall_singleton.
Qed.

Lemma logged_getobj r : behaves (logged Q) all_exn (getobj r).
Proof. apply logged_silent. intros w. unfold getobj. by destruct (heap w !! r). Qed.

Lemma logged_setobj r m : behaves (logged Q) all_exn (setobj r m).
Proof. by apply logged_silent. Qed.

Lemma logged_copy r : behaves (logged Q) all_exn (copy r).
Proof. apply logged_silent. intros w. unfold copy. by destruct (heap w !! r). Qed.

Lemma logged_index {A} (a : list A) i : behaves (logged Q) all_exn (index a i).
Proof. apply logged_silent. intros w. unfold index. by destruct (a !! i). Qed.

Lemma logged_py_assert b : behaves (logged Q) all_exn (py_assert b).
Proof. apply logged_silent. intros w. by destruct b. Qed.

Lemma logged_observe {A} (f : Env → string + A) :
  behaves (logged Q) all_exn (observe f).
Proof. apply logged_silent. intros w. unfold observe. by destruct (f (env w)). Qed.

Lemma logged_write m path : behaves (logged Q) all_exn (write m path).
Proof.
  apply logged_silent. intros w. unfold write.
  by destruct (Molecule_write m path (env w)) as [[] ?].
Qed.

Lemma logged_subprocess_call cmd cwd :
  behaves (logged Q) all_exn (subprocess_call cmd cwd).
Proof.
  apply logged_silent. intros w. unfold subprocess_call.
  by destruct (os_call cmd cwd (env w)) as [[] ?].
Qed.

Lemma logged_with_TemporaryDirectory {A} (body : string → M A) :
  (∀ d, behaves (logged Q) all_exn (body d)) →
  behaves (logged Q) all_exn (with_TemporaryDirectory body).
Proof.
  intros Hbody w. unfold with_TemporaryDirectory.
  destruct (mkdtemp (env w)) as [d e].
  destruct (Hbody d (emit (EvMkdtemp d) e w)) as [(l & Hl & HQ) _].
  destruct (body d (emit (EvMkdtemp d) e w)) as [r w']. simpl in *.
  split; [|done]. by exists l.
Qed.

End Logging.

Ltac logged_step :=
  lazymatch goal with
  | |- behaves _ _ (mbind _ _) => apply behaves_bind; [apply _ | | intros ?]
  | |- behaves _ _ (mret _) => apply behaves_ret; apply _
  | |- behaves _ _ (raise _) => apply behaves_raise; [apply _ | done]
  | |- behaves _ _ (logger _ _) => apply logged_logger
  | |- behaves _ _ (getobj _) => apply logged_getobj
  | |- behaves _ _ (setobj _ _) => apply logged_setobj
  | |- behaves _ _ (copy _) => apply logged_copy
  | |- behaves _ _ (index _ _) => apply logged_index
  | |- behaves _ _ (py_assert _) => apply logged_py_assert
  | |- behaves _ _ (observe _) => apply logged_observe
  | |- behaves _ _ (write _ _) => apply logged_write
  | |- behaves _ _ (subprocess_call _ _) => apply logged_subprocess_call
  | |- behaves _ _ (with_TemporaryDirectory _) =>
      apply logged_with_TemporaryDirectory; intros ?
  | |- behaves _ _ (match ?x with _ => _ end) => destruct x
  | |- behaves _ _ (let _ := _ in _) => lazy zeta
  end.

Section Levels.
Context `{Collaborators}.
Context (Q : Level * string → Prop).
Context (Hinfo : ∀ msg, Q (INFO, msg)) (Hdebug : ∀ msg, Q (DEBUG, msg)).

Lemma rename_atoms_logged r range : ∀ sufices,
  behaves (logged Q) all_exn (rename_atoms r range sufices).
Proof.
  induction range as [|i range IH]; intros sufices; simpl.
  - logged_step.
  - repeat logged_step; auto.
Qed.

Lemma canonicalize_logged r :
  behaves (logged Q) all_exn (_canonicalizeAtomNames r).
Proof.
  unfold _canonicalizeAtomNames.
  repeat logged_step; auto using rename_atoms_logged.
Qed.

Lemma backend_logged mol rtfFile prmFile method acCharges tmpDir netcharge :
  behaves (logged Q) all_exn
    (backend mol rtfFile prmFile method acCharges tmpDir netcharge).
Proof.
  unfold backend, workspace, check_names, gaff_strategy, cgenff_strategy.
  repeat logged_step; auto using canonicalize_logged.
Qed.

Lemma reconcile_logged mol acCharges out :
  behaves (logged Q) all_exn (reconcile mol acCharges out).
Proof. unfold reconcile. repeat logged_step. Qed.

End Levels.

Section Warning.
Context `{Collaborators}.

(** X9.  However a call of [fftype] ends, the only warning it can log is
    the one about the net charge taken from the atomic charges, and only
    when [netcharge] was not given. *)
Theorem fftype_warning_only_when_derived mol rtfFile prmFile method acCharges
    tmpDir netcharge w :
  let w' := (fftype mol rtfFile prmFile method acCharges tmpDir netcharge w).2 in
  ∃ l, log w' = log w ++ l ∧
       ∀ msg, (WARNING, msg) ∈ l →
         netcharge = None ∧
         msg = "Using atomic charges from molecule object to calculate net charge".
Proof.
  pose (Q := λ rec : Level * string,
          rec.1 = WARNING →
          netcharge = None ∧
          rec.2 = "Using atomic charges from molecule object to calculate net charge").
  assert (∀ msg, Q (INFO, msg)) as Hinfo by done.
  assert (∀ msg, Q (DEBUG, msg)) as Hdebug by done.
  assert (behaves (logged Q) all_exn
            (fftype mol rtfFile prmFile method acCharges tmpDir netcharge))
    as Hbehaves.
  { unfold fftype. destruct netcharge as [n|];
      repeat logged_step;
      first [ by apply backend_logged | by apply reconcile_logged | done ]. }
  destruct (Hbehaves w) as [(l & Hl & HQ) _].
  simpl. exists l. split; [done|]. intros msg Hmsg.
  rewrite Forall_forall in HQ. by apply (HQ _ Hmsg).
Qed.

End Warning.

(** ** The consistency checks at equal lengths *)

Section Consistent.
Context `{Collaborators}.

(** X14.  When [fftype] returns, the backend has returned, and at equal
    lengths the checks mean what they say: if the backend gave as many
    elements as the molecule has atoms, they are the elements of the
    molecule; and without both files, if it gave as many names, they are
    the canonical names. *)
Theorem fftype_Ok_consistent mol rtfFile prmFile method acCharges tmpDir
    netcharge w m prm r' w' :
  heap w !! mol = Some m → wf_molecule m →
  fftype mol rtfFile prmFile method acCharges tmpDir netcharge w
  = (Ok (prm, r'), w') →
  ∃ nc w1 names elems atomtypes charges masses impropers,
    netcharge_used m netcharge = Ok nc ∧
    backend mol rtfFile prmFile method acCharges tmpDir nc
      (after_netcharge netcharge w)
    = (Ok (prm, names, elems, atomtypes, charges, masses, impropers), w1) ∧
    (length elems = numAtoms m → elems = element m) ∧
    (truthy rtfFile && truthy prmFile = false →
     length names = numAtoms m → names = canonical_names (element m)).
Proof.
  intros Hm Hwf Hrun.
  destruct (fftype_Ok_elements _ _ _ _ _ _ _ _ _ _ _ _ Hm Hrun)
    as [(nc & w1 & names & elems & atomtypes & charges & masses & impropers
         & Hnc & Hback & Helems) _].
  exists nc, w1, names, elems, atomtypes, charges, masses, impropers.
  split; [done|]. split; [done|]. pose proof Hwf as (Hel & _). split.
  - intros Hlen. symmetry. apply np_all_eq_same_length; [congruence|done].
  - intros Hdirect Hlen.
    destruct (fftype_Ok_checked _ _ _ _ _ _ _ _ _ _ Hrun) as [Hin Hac].
    destruct (decide (numAtoms m = 0)) as [Hzero|Hpos].
    { rewrite (fftype_external_no_atoms _ _ _ _ _ _ _ _ m), Hnc in Hrun
        by done.
      discriminate Hrun. }
    symmetry. apply np_all_eq_same_length.
    + rewrite length_canonical_names. congruence.
    + eapply backend_Ok_names;
        [done| |done|lia|exact Hback].
      by rewrite heap_after_netcharge.
Qed.

End Consistent.

(** ** The assertions of [TestFftype] *)

Section TestProperties.
Context `{Numeric}.
Variable almost_equal : float → float → nat → bool.

Lemma assertEqual_Ok {A} `{EqDecision A} (a b : A) :
  assertEqual a b = Ok () ↔ a = b.
Proof. unfold assertEqual. by case_bool_decide. Qed.

Lemma and_then_Ok a b : and_then a b = Ok () ↔ a = Ok () ∧ b = Ok ().
Proof.
  destruct a as [[]|]; simpl; [by split; [|intros [_ ?]]|].
  by split; [|intros [? _]].
Qed.

Lemma for_each_Ok {A} (body : A → result unit) l :
  for_each body l = Ok () ↔ Forall (λ x, body x = Ok ()) l.
Proof.
  induction l as [|x l IH]; simpl; [by split|].
  rewrite Forall_cons, <-IH. destruct (body x) as [[]|].
  - by split; [|intros [_ ?]].
  - by split; [|intros [? _]].
Qed.

Lemma for_each_outcome {A} (body : A → result unit) l :
  (∀ x, body x = Ok () ∨ body x = Err AssertionError) →
  for_each body l = Ok () ∨ for_each body l = Err AssertionError.
Proof.
  intros Hbody. induction l as [|x l IH]; simpl; [by left|].
  destruct (Hbody x) as [->| ->]; [exact IH|by right].
Qed.

Lemma and_then_outcome a b :
  a = Ok () ∨ a = Err AssertionError → b = Ok () ∨ b = Err AssertionError →
  and_then a b = Ok () ∨ and_then a b = Err AssertionError.
Proof. intros [->| ->] Hb; simpl; [exact Hb|by right]. Qed.

Lemma assertEqual_outcome {A} `{EqDecision A} (a b : A) :
  assertEqual a b = Ok () ∨ assertEqual a b = Err AssertionError.
Proof. unfold assertEqual. case_bool_decide; [by left|by right]. Qed.

Lemma assertListAlmostEqual_Ok list1 list2 places :
  assertListAlmostEqual almost_equal list1 list2 places = Ok () ↔
  Forall2 (λ a b, almost_equal a b places = true) list1 list2.
Proof.
  unfold assertListAlmostEqual.
  rewrite and_then_Ok, assertEqual_Ok, for_each_Ok. split.
  - intros [Hlen Hall]. apply Forall2_same_length_lookup_2; [done|].
    intros i a b Ha Hb. rewrite Forall_forall in Hall.
    specialize (Hall (a, b)). simpl in Hall. unfold assertAlmostEqual in Hall.
    destruct (almost_equal a b places); [done|].
    discriminate Hall. apply list_elem_of_lookup. exists i.
    by apply lookup_zip_with_Some; eauto.
  - intros Hall. split; [by eapply Forall2_length|].
    apply Forall_forall. intros [a b] Hab.
    apply list_elem_of_lookup in Hab as [i Hi].
    apply lookup_zip_with_Some in Hi as (a' & b' & [= <- <-] & Ha & Hb).
    unfold assertAlmostEqual.
    by rewrite (Forall2_lookup_lr _ _ _ _ _ _ Hall Ha Hb).
Qed.

Lemma assertListAlmostEqual_outcome list1 list2 places :
  assertListAlmostEqual almost_equal list1 list2 places = Ok () ∨
  assertListAlmostEqual almost_equal list1 list2 places = Err AssertionError.
Proof.
  unfold assertListAlmostEqual.
  apply and_then_outcome; [apply assertEqual_outcome|].
  apply for_each_outcome. intros [a b]. unfold assertAlmostEqual.
  destruct (almost_equal a b places); [by left|by right].
Qed.

Lemma test_mol_props_Ok testMolecule names elements atomtypes charges refs :
  _test_mol_props almost_equal testMolecule names elements atomtypes charges
    refs = Ok () ↔
  name testMolecule = names ∧
  element testMolecule = elements ∧
  atomtype testMolecule = atomtypes ∧
  Forall2 (λ a b, almost_equal a b 7 = true) (charge testMolecule) charges ∧
  match refs with
  | [] => impropers testMolecule = []
  | _ => ∀ i test ref, impropers testMolecule !! i = Some test →
                       refs !! i = Some ref → test = ref
  end.
Proof.
  unfold _test_mol_props.
  rewrite !and_then_Ok, !assertEqual_Ok, assertListAlmostEqual_Ok.
  do 4 (apply and_iff_compat_l).
  destruct refs as [|ref0 refs]; simpl.
  { by rewrite assertEqual_Ok. }
  rewrite for_each_Ok, Forall_forall. split.
  - intros Hall i test ref Htest Href.
    apply (assertEqual_Ok test ref). apply (Hall (test, ref)).
    apply list_elem_of_lookup. exists i.
    by apply lookup_zip_with_Some; eauto.
  - intros Hall [test ref] Hin.
    apply list_elem_of_lookup in Hin as [i Hi].
    apply lookup_zip_with_Some in Hi as (a' & b' & [= <- <-] & Ha & Hb).
    apply assertEqual_Ok. by eapply Hall.
Qed.

(** X10.  [assertListAlmostEqual] passes exactly when the two lists have
    the same length and agree entry by entry to the given number of places;
    otherwise it raises [AssertionError] and nothing else. *)
Theorem assertListAlmostEqual_passes list1 list2 places :
  (assertListAlmostEqual almost_equal list1 list2 places = Ok () ↔
   Forall2 (λ a b, almost_equal a b places = true) list1 list2) ∧
  (assertListAlmostEqual almost_equal list1 list2 places = Ok () ∨
   assertListAlmostEqual almost_equal list1 list2 places = Err AssertionError).
Proof.
  split; [apply assertListAlmostEqual_Ok|apply assertListAlmostEqual_outcome].
Qed.

(** X11.  [_test_mol_props] passes exactly when names, elements and atom
    types are equal to the references, the charges agree with the reference
    charges in number and to seven places, and for the impropers: with an
    empty reference the molecule has none, and with a reference that is not
    empty the impropers agree at every position that both lists have.
    Otherwise it raises [AssertionError] and nothing else. *)
Theorem test_mol_props_passes testMolecule names elements atomtypes charges
    refs :
  (_test_mol_props almost_equal testMolecule names elements atomtypes charges
     refs = Ok () ↔
   name testMolecule = names ∧
   element testMolecule = elements ∧
   atomtype testMolecule = atomtypes ∧
   Forall2 (λ a b, almost_equal a b 7 = true) (charge testMolecule) charges ∧
   match refs with
   | [] => impropers testMolecule = []
   | _ => ∀ i test ref, impropers testMolecule !! i = Some test →
                        refs !! i = Some ref → test = ref
   end) ∧
  (_test_mol_props almost_equal testMolecule names elements atomtypes charges
     refs = Ok () ∨
   _test_mol_props almost_equal testMolecule names elements atomtypes charges
     refs = Err AssertionError).
Proof.
  split; [apply test_mol_props_Ok|]. unfold _test_mol_props.
  repeat (apply and_then_outcome;
          [first [apply assertEqual_outcome
                 |apply assertListAlmostEqual_outcome]|]).
  case_bool_decide; [|apply assertEqual_outcome].
  apply for_each_outcome. intros [test ref]. apply assertEqual_outcome.
Qed.

(** X12.  With a reference list of impropers that is not empty,
    [_test_mol_props] does not compare the number of impropers: a molecule
    whose other properties match passes as soon as one of the two lists of
    impropers is a prefix of the other, for instance when the molecule has
    no impropers at all. *)
Theorem test_mol_props_impropers_prefix testMolecule charges refs :
  Forall2 (λ a b, almost_equal a b 7 = true) (charge testMolecule) charges →
  refs ≠ [] →
  impropers testMolecule `prefix_of` refs ∨
  refs `prefix_of` impropers testMolecule →
  _test_mol_props almost_equal testMolecule (name testMolecule)
    (element testMolecule) (atomtype testMolecule) charges refs = Ok ().
Proof.
  intros Hcharges Hne Hprefix. apply test_mol_props_Ok.
  split; [done|]. split; [done|]. split; [done|]. split; [done|].
  destruct refs as [|ref0 refs]; [done|].
  intros i test ref Htest Href.
  destruct Hprefix as [[k Hk]|[k Hk]].
  - rewrite Hk in Href. rewrite (lookup_app_l_Some _ _ _ _ Htest) in Href.
    congruence.
  - rewrite Hk in Htest. rewrite (lookup_app_l_Some _ _ _ _ Href) in Htest.
    congruence.
Qed.

(** X13.  [mapping] raises exactly when the value holds, at any depth of
    arrays, a leaf that is neither a string nor a number; the message names
    the type of the first such leaf from the left.  Otherwise it returns a
    string. *)
Theorem mapping_first_unmapped value :
  match first_unmapped value with
  | Some t => mapping value = inl ("No mapping for type " +:+ t)
  | None => ∃ s, mapping value = inr s
  end.
Proof.
  revert value. fix IH 1. intros [s|b|n|items|t]; simpl; eauto.
  induction items as [|x items IHitems]; simpl; [eauto|].
  specialize (IH x). destruct (first_unmapped x) as [t|].
  - by rewrite IH.
  - destruct IH as [s ->].
    match goal with
    | |- context [match ?u with Some _ => _ | None => _ end] =>
        destruct u as [t|]
    end.
    + match goal with
      | H : match ?e with inl _ => _ | inr _ => _ end = _ |- _ =>
          destruct e; [|discriminate]
      end. by injection IHitems as ->.
    + destruct IHitems as [s' Hs'].
      match goal with
      | H : match ?e with inl _ => _ | inr _ => _ end = _ |- _ =>
          destruct e; [discriminate|]
      end. eauto.
Qed.

End TestProperties.


Section Examples.
Import Demo Runs.

(** C2, as stated, fails: the renamed atoms 10 (the eleventh carbon) and 11
    (the atom of element ['C1']) are both called [C11]; and a molecule
    without atoms is not renamed at all, [mol.segid[0]] raises
    [IndexError]. *)
Lemma canonicalizeAtomNames_claim_fails :
  let run := _canonicalizeAtomNames 0 (start [clash] blank) in
  let names := ["C1"; "C2"; "C3"; "C4"; "C5"; "C6"; "C7"; "C8"; "C9"; "C10";
                "C11"; "C11"] in
  (run.1 = Ok 1 ∧
   name <$> heap run.2 !! 1 = Some names ∧
   names !! 10 = Some "C11" ∧ names !! 11 = Some "C11" ∧
   ¬ NoDup names) ∧
  (_canonicalizeAtomNames 0 (start [no_atoms] blank)).1 = Err IndexError.
Proof.
  cbv zeta. split; [|vm_compute; reflexivity].
  split; [vm_compute; reflexivity|]. split; [vm_compute; reflexivity|].
  split; [reflexivity|]. split; [reflexivity|].
  intros Hnd.
  pose proof (proj1 (NoDup_alt _) Hnd 10 11 "C11" eq_refl eq_refl).
  discriminate.
Qed.

Lemma canonicalizeAtomNames_renames_witness :
  wf_molecule ethanolamine ∧ 0 < numAtoms ethanolamine ∧
  ∃ w' m',
    _canonicalizeAtomNames 0 (start [ethanolamine] blank) = (Ok 1, w') ∧
    heap w' !! 0 = Some ethanolamine ∧
    heap w' !! 1 = Some m' ∧
    name m' !! 8 = Some "O1" ∧
    NoDup (name m').
Proof.
  assert (wf_molecule ethanolamine) as Hwf by (by vm_compute).
  assert (0 < numAtoms ethanolamine) as Hn by (vm_compute; lia).
  split; [done|]. split; [done|].
  destruct (canonicalizeAtomNames_renames 0 (start [ethanolamine] blank)
              ethanolamine eq_refl Hwf Hn)
    as (w' & m' & Hrun & Hframe & Hnew & _ & _ & _ & _ & Hname & Hnodup).
  exists w', m'. split; [exact Hrun|].
  split; [apply (Hframe 0); simpl; lia|]. split; [exact Hnew|].
  split; [exact (Hname 8 "O" eq_refl)|].
  apply Hnodup. intros e He. simpl in He.
  repeat (apply elem_of_cons in He as [->|He]; [reflexivity|]).
  destruct (proj1 (elem_of_nil e) He).
Defined.

(** C3 at a failing input.  The molecule is a lone carbon atom, renamed
    [C1]; the backend reports two atoms, both named [C1].  The comparison of
    the one name with the two broadcasts, so the check of line 178 passes
    and [fftype] returns a molecule with two atom types for one atom. *)
Lemma fftype_names_check_broadcasts :
  let run := fftype 0 None None "GAFF2" None None (Some (PyInt 0))
               (start [carbon] two_for_one) in
  run.1 = Ok ("amber:/tmp/tmp0/mol.frcmod", 2) ∧
  name <$> heap run.2 !! 1 = Some ["C1"] ∧
  prepi_file two_for_one
  = inr (["C1"; "C1"], ["c3"; "c3"], [q 0 1; q 0 1], []) ∧
  atomtype <$> heap run.2 !! 2 = Some ["c3"; "c3"].
Proof. by vm_compute. Qed.

(** C4 at a failing input.  The molecule is H2 and the topology file given
    by the caller describes one hydrogen atom.  The comparison of the two
    elements with the one broadcasts, so the check of line 180 passes and
    [fftype] returns a molecule with one atom type for two atoms. *)
Lemma fftype_elements_check_broadcasts :
  let run := fftype 0 (Some "h.rtf") (Some "h.prm") "GAFF2" None None
               (Some (PyInt 0)) (start [hydrogen] one_hydrogen) in
  run.1 = Ok ("charmm:h.rtf:h.prm", 1) ∧
  element hydrogen = ["H"; "H"] ∧
  rtf_file one_hydrogen
  = inr (["HX"], ["H"], ["HGA1"], [q 0 1], [q 1008 1000], []) ∧
  atomtype <$> heap run.2 !! 1 = Some ["HGA1"].
Proof. by vm_compute. Qed.

(** C5, as stated, fails: the names in the topology file are [OH2], [H1],
    [H2], the molecule has [OW], [HW1], [HW2], and the call returns. *)
Lemma fftype_direct_file_names_unchecked :
  let run := fftype 0 (Some "w.rtf") (Some "w.prm") "CGenFF_2b6" None None
               None (start [water] water_rtf) in
  run.1 = Ok ("charmm:w.rtf:w.prm", 1) ∧
  name water = ["OW"; "HW1"; "HW2"] ∧
  rtf_file water_rtf
  = inr (["OH2"; "H1"; "H2"], ["O"; "H"; "H"], ["OT"; "HT"; "HT"],
         [q (-834) 1000; q 417 1000; q 417 1000],
         [q 15999 1000; q 1008 1000; q 1008 1000], []) ∧
  np_all_eq (name water) ["OH2"; "H1"; "H2"] = false.
Proof. by vm_compute. Qed.

Lemma fftype_direct_file_witness :
  let w := start [water] water_rtf in
  let run := fftype 0 (Some "w.rtf") (Some "w.prm") "CGenFF_2b6" None None
               None w in
  "CGenFF_2b6" ∈ fftypemethods ∧
  run.1 = Ok ("charmm:w.rtf:w.prm", 1) ∧
  trace run.2 = [] ∧ env run.2 = water_rtf ∧
  atomtype <$> heap run.2 !! 1 = Some ["OT"; "HT"; "HT"] ∧
  charge <$> heap run.2 !! 1 = Some (charge water).
Proof.
  assert ("CGenFF_2b6" ∈ fftypemethods) as Hin by apply list_elem_of_here.
  split; [exact Hin|]. cbv zeta.
  rewrite (fftype_direct_file 0 "w.rtf" "w.prm" "CGenFF_2b6" None None None
             (start [water] water_rtf) water
             ltac:(discriminate) ltac:(discriminate) Hin
             ltac:(intros [_ ?]; discriminate) eq_refl).
  by vm_compute.
Defined.

Lemma fftype_typedMolecule_witness :
  let w := start [water] water_rtf in
  let run := fftype 0 (Some "w.rtf") (Some "w.prm") "CGenFF_2b6" None None
               None w in
  run.1 = Ok ("charmm:w.rtf:w.prm", 1) ∧
  heap run.2 !! 0 = Some water ∧
  ∃ atomtypes masses impropers,
    heap run.2 !! 1
    = Some (mkMolecule (name water) (element water) (charge water)
              atomtypes masses impropers (segid water) (resname water)).
Proof.
  cbv zeta. split; [by vm_compute|].
  destruct (fftype_typedMolecule 0 (Some "w.rtf") (Some "w.prm") "CGenFF_2b6"
              None None None (start [water] water_rtf) water
              "charmm:w.rtf:w.prm" 1
              (fftype 0 (Some "w.rtf") (Some "w.prm") "CGenFF_2b6" None None
                 None (start [water] water_rtf)).2
              eq_refl ltac:(by vm_compute))
    as (nc & w1 & names & elems & atomtypes & charges & masses & impropers
        & _ & _ & _ & _ & Hmol & Hnew).
  split; [exact Hmol|]. exists atomtypes, masses, impropers. exact Hnew.
Defined.

(** C6, as stated, fails: the charge of the one atom is NaN, [netcharge]
    is absent and the configuration is accepted; line 101 raises
    [ValueError], so no net charge is derived, no record is logged and no
    strategy runs. *)
Lemma fftype_derived_netcharge_not_a_number :
  let run := fftype 0 None None "GAFF2" None None None
               (start [uncharged] blank) in
  charge uncharged = [NaN] ∧
  "GAFF2" ∈ fftypemethods ∧
  run.1 = Err (ValueError "cannot convert float NaN to integer") ∧
  log run.2 = [] ∧
  trace run.2 = [].
Proof.
  cbv zeta. split; [reflexivity|].
  split; [apply list_elem_of_further, list_elem_of_further, list_elem_of_here|].
  split; [vm_compute; reflexivity|]. split; vm_compute; reflexivity.
Qed.

Lemma fftype_derived_netcharge_witness :
  let run := fftype 0 None None "GAFF2" None None None
               (start [hydroxide] hydroxide_typed) in
  py_int (py_round (np_sum (charge hydroxide))) = Integer (-1) ∧
  run.1 = Ok ("amber:/tmp/tmp0/mol.frcmod", 2) ∧
  (WARNING, "Using atomic charges from molecule object to calculate net charge")
  ∈ log run.2 ∧
  trace run.2
  = [EvMkdtemp "/tmp/tmp0";
     EvWrite "/tmp/tmp0/mol.mol2";
     EvCall ["antechamber"; "-at"; "gaff2"; "-nc"; "-1"; "-fi"; "mol2";
             "-i"; "mol.mol2"; "-fo"; "prepi"; "-o"; "mol.prepi"]
            "/tmp/tmp0";
     EvCall ["parmchk2"; "-f"; "prepi"; "-s"; "gaff2"; "-i"; "mol.prepi";
             "-o"; "mol.frcmod"; "-a"; "Y"]
            "/tmp/tmp0";
     EvCleanup "/tmp/tmp0"].
Proof.
  cbv zeta.
  assert (py_int (py_round (np_sum (charge hydroxide))) = Integer (-1))
    as Hconv by (vm_compute; reflexivity).
  assert ((fftype 0 None None "GAFF2" None None None
             (start [hydroxide] hydroxide_typed)).1
          = Ok ("amber:/tmp/tmp0/mol.frcmod", 2)) as Hres
    by (vm_compute; reflexivity).
  split; [exact Hconv|]. split; [exact Hres|].
  pose proof (fftype_derived_netcharge 0 None None "GAFF2" None None
                (start [hydroxide] hydroxide_typed) hydroxide
                ltac:(apply list_elem_of_further, list_elem_of_further,
                        list_elem_of_here)
                ltac:(intros [? _]; discriminate)
                eq_refl) as Hderived.
  cbv zeta in Hderived. rewrite Hconv in Hderived.
  destruct Hderived as (_ & Hwarning & Hsteps).
  split; [exact Hwarning|].
  destruct (Hsteps eq_refl ltac:(vm_compute; auto) ltac:(vm_compute; lia))
    as (t & Ht & _ & Hall).
  etrans; [exact Ht|]. rewrite (Hall _ Hres). vm_compute. reflexivity.
Defined.

Lemma fftype_cgenff_rejects_acCharges_witness :
  "gas" ≠ "" ∧
  fftype 0 None None "CGenFF_2b6" (Some "gas") None None (start [water] blank)
  = (Err (ValueError "acCharges"), start [water] blank).
Proof.
  assert ("gas" ≠ "") as Hgas by discriminate.
  split; [exact Hgas|].
  exact (fftype_cgenff_rejects_acCharges 0 None None "gas" None None
           (start [water] blank) Hgas).
Defined.

Lemma fftype_method_closed_set_witness :
  ("AMBER" ∉ fftypemethods) ∧
  fftype 0 None None "AMBER" None None None (start [water] blank)
  = (Err (ValueError "Invalid method AMBER. Available methods CGenFF_2b6,GAFF,GAFF2"),
     start [water] blank).
Proof.
  assert ("AMBER" ∉ fftypemethods) as Hnot.
  { intros Hin. apply (proj1 (proj1 fftype_method_closed_set "AMBER")) in Hin.
    destruct Hin as [?|[?|?]]; discriminate. }
  split; [exact Hnot|].
  exact (proj1 (proj2 fftype_method_closed_set) 0 None None "AMBER" None None
           None (start [water] blank) Hnot).
Defined.

Lemma fftype_workspace_released_witness :
  let run := fftype 0 None None "GAFF2" None (Some "/home/me/keep") None
               (start [ethanolamine] antechamber_fails) in
  run.1 = Err (RuntimeError (quoted "antechamber" +:+ " failed")) ∧
  ∃ t e,
    trace run.2 = EvMkdtemp "/tmp/tmp0" :: t ++ [EvCleanup "/tmp/tmp0"] ∧
    env run.2 = rmtree "/tmp/tmp0" e ∧
    Forall (in_dir "/home/me/keep") t.
Proof.
  cbv zeta. split; [by vm_compute|].
  apply (proj2 (fftype_workspace_released 0 None None "GAFF2" None
                  (Some "/home/me/keep") None
                  (start [ethanolamine] antechamber_fails) eq_refl)
           ethanolamine).
  - apply list_elem_of_further, list_elem_of_further, list_elem_of_here.
  - intros [? _]; discriminate.
  - reflexivity.
  - by vm_compute.
  - vm_compute; lia.
Defined.

Lemma fftype_truthiness_witness :
  let run := fftype 0 (Some "") (Some "w.prm") "GAFF2" None None None
               (start [ethanolamine] antechamber_fails) in
  heap run.2 !! 1 = Some (canonicalized ethanolamine) ∧
  (INFO, "Assigning atom types with GAFF2") ∈ log run.2.
Proof.
  cbv zeta.
  apply (proj2 (proj2 (proj2 fftype_truthiness)) 0 (Some "") (Some "w.prm")
           "GAFF2" None None None (start [ethanolamine] antechamber_fails)
           ethanolamine).
  - by left.
  - apply list_elem_of_further, list_elem_of_further, list_elem_of_here.
  - intros [? _]; discriminate.
  - reflexivity.
  - by vm_compute.
  - vm_compute; lia.
Defined.

(** Runs for the properties beyond the claims. *)


Lemma fftype_gaff_steps_witness :
  let run := fftype 0 None None "GAFF2" None (Some "/home/me/keep") None
               (start [ethanolamine] antechamber_fails) in
  run.1 = Err (tool_failed "antechamber") ∧
  trace run.2
  = [EvMkdtemp "/tmp/tmp0";
     EvWrite "/home/me/keep/mol.mol2";
     EvCall (antechamber_cmd "gaff2" (PyInt 0) None) "/home/me/keep";
     EvCleanup "/tmp/tmp0"].
Proof.
  cbv zeta.
  assert ((fftype 0 None None "GAFF2" None (Some "/home/me/keep") None
             (start [ethanolamine] antechamber_fails)).1
          = Err (RuntimeError (quoted "antechamber" +:+ " failed"))) as Hrun
    by (vm_compute; reflexivity).
  split; [exact Hrun|].
  destruct (fftype_gaff_steps 0 None None "GAFF2" None (Some "/home/me/keep")
              None (start [ethanolamine] antechamber_fails) ethanolamine
              eq_refl
              ltac:(apply list_elem_of_further, list_elem_of_here)
              eq_refl ltac:(vm_compute; auto) ltac:(vm_compute; lia))
    as (t & Ht & _ & _ & _ & Hruntime).
  destruct (Hruntime _ Hrun) as [[_ Htake]|[Hother _]].
  - etrans; [exact Ht|]. rewrite Htake. vm_compute. reflexivity.
  - vm_compute in Hother. discriminate Hother.
Defined.

Lemma fftype_cgenff_steps_witness :
  let run := fftype 0 None None "CGenFF_2b6" None None None
               (start [water] water_rtf) in
  run.1 = Err AssertionError ∧
  trace run.2
  = [EvMkdtemp "/tmp/tmp0";
     EvWrite "/tmp/tmp0/mol.pdb";
     EvCall (match_typer_cmd (PyInt 0)) "/tmp/tmp0";
     EvCleanup "/tmp/tmp0"].
Proof.
  cbv zeta.
  assert ((fftype 0 None None "CGenFF_2b6" None None None
             (start [water] water_rtf)).1 = Err AssertionError) as Hrun
    by (vm_compute; reflexivity).
  split; [exact Hrun|].
  destruct (fftype_cgenff_steps 0 None None None None None
              (start [water] water_rtf) water
              eq_refl eq_refl eq_refl ltac:(vm_compute; auto)
              ltac:(vm_compute; lia))
    as (t & Ht & _ & _ & Hassert & _).
  etrans; [exact Ht|]. rewrite (Hassert Hrun). vm_compute. reflexivity.
Defined.

Lemma fftype_direct_file_ignores_witness :
  fftype 0 (Some "w.rtf") (Some "w.prm") "GAFF" None None (Some (PyInt 0))
    (start [water] water_rtf)
  = fftype 0 (Some "w.rtf") (Some "w.prm") "CGenFF_2b6" None
      (Some "/home/me/keep") (Some (PyInt 7)) (start [water] water_rtf).
Proof.
  apply (proj2 (fftype_direct_file_ignores 0 "w.rtf" "w.prm" "GAFF"
                  "CGenFF_2b6" None None (Some "/home/me/keep")
                  (start [water] water_rtf)
                  ltac:(discriminate) ltac:(discriminate)
                  ltac:(apply list_elem_of_further, list_elem_of_here)
                  ltac:(apply list_elem_of_here)
                  ltac:(intros [? _]; discriminate)
                  ltac:(intros [_ ?]; discriminate))).
Defined.

Lemma canonicalizeAtomNames_idempotent_witness :
  ∃ w1 w2 m1,
    _canonicalizeAtomNames 0 (start [ethanolamine] blank) = (Ok 1, w1) ∧
    _canonicalizeAtomNames 1 w1 = (Ok 2, w2) ∧
    heap w2 !! 1 = Some m1 ∧
    heap w2 !! 2 = Some m1.
Proof.
  exact (canonicalizeAtomNames_idempotent 0 (start [ethanolamine] blank)
           ethanolamine eq_refl ltac:(vm_compute; auto)
           ltac:(vm_compute; lia)).
Defined.

Lemma canonicalizeAtomNames_ordinals_witness :
  ∃ w' m',
    _canonicalizeAtomNames 0 (start [ethanolamine] blank) = (Ok 1, w') ∧
    heap w' !! 1 = Some m' ∧
    ∃ i e, element ethanolamine !! i = Some e ∧ upper e = "H" ∧
           name m' !! i = Some "H5".
Proof.
  destruct (canonicalizeAtomNames_ordinals 0 (start [ethanolamine] blank)
              ethanolamine eq_refl ltac:(vm_compute; auto)
              ltac:(vm_compute; lia))
    as (w' & m' & Hrun & Hnew & Hall & _).
  exists w', m'. split; [exact Hrun|]. split; [exact Hnew|].
  apply (Hall "H" 5). vm_compute. lia.
Defined.

Lemma fftype_no_atoms_witness :
  let run := fftype 0 None None "GAFF2" None None None
               (start [no_atoms] blank) in
  run.1 = Err IndexError ∧ trace run.2 = [] ∧ env run.2 = blank ∧
  heap run.2 !! 0 = Some no_atoms.
Proof.
  exact (fftype_no_atoms 0 None None "GAFF2" None None None
           (start [no_atoms] blank) no_atoms eq_refl
           ltac:(apply list_elem_of_further, list_elem_of_further,
                   list_elem_of_here)
           ltac:(intros [? _]; discriminate)
           eq_refl ltac:(vm_compute; auto) eq_refl).
Defined.

Lemma fftype_Ok_consistent_witness :
  ∃ nc w1 names elems atomtypes charges masses impropers,
    netcharge_used water None = Ok nc ∧
    backend 0 (Some "w.rtf") (Some "w.prm") "CGenFF_2b6" None None nc
      (after_netcharge None (start [water] water_rtf))
    = (Ok ("charmm:w.rtf:w.prm", names, elems, atomtypes, charges, masses,
           impropers), w1) ∧
    (length elems = numAtoms water → elems = element water) ∧
    (truthy (Some "w.rtf") && truthy (Some "w.prm") = false →
     length names = numAtoms water → names = canonical_names (element water)).
Proof.
  apply (fftype_Ok_consistent 0 (Some "w.rtf") (Some "w.prm") "CGenFF_2b6"
           None None None (start [water] water_rtf) water
           "charmm:w.rtf:w.prm" 1
           (fftype 0 (Some "w.rtf") (Some "w.prm") "CGenFF_2b6" None None
              None (start [water] water_rtf)).2
           eq_refl ltac:(vm_compute; auto)).
  vm_compute. reflexivity.
Defined.

Lemma test_mol_props_impropers_prefix_witness :
  impropers water = [] ∧ one_improper ≠ [] ∧
  _test_mol_props close water (name water) (element water) (atomtype water)
    (charge water) one_improper = Ok ().
Proof.
  split; [reflexivity|]. split; [discriminate|].
  apply (test_mol_props_impropers_prefix close water (charge water)
           one_improper).
  - repeat constructor.
  - discriminate.
  - left. apply prefix_nil.
Defined.

End Examples.
